(** * pdf_to_text: caption lookup and artifact naming

    A shallow embedding of [src/pdf_to_text/pdf_to_text.py]
    (class [PDFToTextConverter]) and the properties of its caption
    heuristic, of the names of the files it writes and of the text it
    concatenates.

    Conventions of the embedding.
    - A Python [str] is a [string]; a character is the code point
      U+0000..U+00FF carried by the 8-bit [ascii]. The classes [\s], [\d]
      and [\w] and the whitespace of [str.strip] are CPython's tables on
      that range.
    - The two regular expressions of the source are terms of a small
      regex syntax run by a backtracking matcher with greedy quantifiers.
    - pdfplumber is seen through what the converter observes of a page:
      its size, its text, its tables, its images and what cropping a
      bounding box gives.  Coordinates are integers, where pdfplumber
      has floats: the properties rest on the comparisons, the clipping
      and the zero-area tests of the code, not on exact sums.
    - The files written and the lines printed by one call of
      [extract_and_save_from_pdf] are collected, in order, in a [State]
      together with the two counters of the loop. *)

From Stdlib Require Import List String Ascii Bool Arith NArith ZArith Lia.
From Stdlib Require Import Decimal DecimalNat DecimalString.
Import ListNotations.
Open Scope string_scope.

(** ** Python strings *)

Module PyStr.

Definition code (c : ascii) : N := N_of_ascii c.

Definition between (lo hi : N) (c : ascii) : bool :=
  ((lo <=? code c) && (code c <=? hi))%N.

(** [str.isspace] on one character, which is also the class [\s]:
    TAB..CR, FS..US, SPACE, NEL and NBSP. *)
Definition isspace (c : ascii) : bool :=
  between 9 13 c || between 28 32 c || between 133 133 c || between 160 160 c.

(** The class [\d]: the decimal digits. *)
Definition isdigit (c : ascii) : bool := between 48 57 c.

(** The class [\w]: alphanumeric characters and the underscore. *)
Definition isword (c : ascii) : bool :=
  isdigit c || between 65 90 c || between 97 122 c || between 95 95 c
  || between 170 170 c || between 178 179 c || between 181 181 c
  || between 185 186 c || between 188 190 c || between 192 214 c
  || between 216 246 c || between 248 255 c.

(** Simple lower-casing, as used by the [(?i)] flag. *)
Definition lower (c : ascii) : ascii :=
  if between 65 90 c || (between 192 222 c && negb (between 215 215 c))
  then ascii_of_N (code c + 32) else c.

Definition newline : ascii := "010"%char.

Definition is_empty (s : string) : bool :=
  match s with EmptyString => true | String _ _ => false end.

Fixpoint drop_while (p : ascii -> bool) (s : string) : string :=
  match s with
  | EmptyString => EmptyString
  | String a s' => if p a then drop_while p s' else s
  end.

Fixpoint take_while (p : ascii -> bool) (s : string) : string :=
  match s with
  | EmptyString => EmptyString
  | String a s' => if p a then String a (take_while p s') else EmptyString
  end.

Definition lstrip (s : string) : string := drop_while isspace s.

Fixpoint rstrip (s : string) : string :=
  match s with
  | EmptyString => EmptyString
  | String a s' =>
      let r := rstrip s' in
      if isspace a && is_empty r then EmptyString else String a r
  end.

(** [s.strip()] *)
Definition strip (s : string) : string := rstrip (lstrip s).

(** [s[:n]] *)
Fixpoint take (n : nat) (s : string) : string :=
  match n, s with
  | S n', String a s' => String a (take n' s')
  | _, _ => EmptyString
  end.

(** [s.split('\n')]: the pieces between newlines; never an empty list. *)
Fixpoint split_lines (s : string) : list string :=
  match s with
  | EmptyString => [EmptyString]
  | String a s' =>
      if Ascii.eqb a newline then EmptyString :: split_lines s'
      else match split_lines s' with
           | l :: ls => String a l :: ls
           | [] => [String a EmptyString]
           end
  end.

(** [str(n)] for a natural number, as an f-string formats it. *)
Definition str (n : nat) : string := NilEmpty.string_of_uint (Nat.to_uint n).

(** [x or ''] for a value that is a string or [None]. *)
Definition or_empty (o : option string) : string :=
  match o with Some s => s | None => EmptyString end.

End PyStr.

(** ** Regular expressions *)

Module Re.

Import PyStr.

Inductive regex : Type :=
| Eps                             (* the empty pattern *)
| Lit (c : ascii)                 (* a literal character *)
| Cls (p : ascii -> bool)         (* a class: [\s], [\d], [[...]], [.] *)
| Seq (r1 r2 : regex)
| Alt (r1 r2 : regex)             (* [r1|r2], left first *)
| Opt (r : regex)                 (* [r?], greedy *)
| Star (p : ascii -> bool)        (* [c*] on a class, greedy *)
| Group (n : nat) (r : regex).    (* capturing group number [n] *)

(** [c+] *)
Definition Plus (p : ascii -> bool) : regex := Seq (Cls p) (Star p).

(** A literal word, character by character. *)
Fixpoint Word (w : string) : regex :=
  match w with
  | EmptyString => Eps
  | String c w' => Seq (Lit c) (Word w')
  end.

(** The captured groups, most recent first. *)
Definition groups : Type := list (nat * string).

Fixpoint group (n : nat) (g : groups) : option string :=
  match g with
  | [] => None
  | (m, s) :: g' => if Nat.eqb n m then Some s else group n g'
  end.

(** What was consumed between the input [s] and its suffix [s']. *)
Definition consumed (s s' : string) : string :=
  take (String.length s - String.length s') s.

Section Exec.
Context {R : Type}.
(** [ignorecase] is the flag [(?i)]. *)
Variable ignorecase : bool.

Definition lit_eqb (c a : ascii) : bool :=
  if ignorecase then Ascii.eqb (lower a) (lower c) else Ascii.eqb a c.

(** Greedy star on a class: take one more character when possible,
    and give it back when what follows fails. *)
Fixpoint star (p : ascii -> bool) (s : string) (g : groups)
         (k : string -> groups -> option R) : option R :=
  match s with
  | String a s' =>
      if p a then
        match star p s' g k with
        | Some x => Some x
        | None => k s g
        end
      else k s g
  | EmptyString => k s g
  end.

(** Backtracking matcher: [exec r s g k] matches [r] at the start of
    [s] and passes the rest of the input to [k]; the first
    alternative for which [k] succeeds is the result. *)
Fixpoint exec (r : regex) (s : string) (g : groups)
         (k : string -> groups -> option R) : option R :=
  match r with
  | Eps => k s g
  | Lit c =>
      match s with
      | String a s' => if lit_eqb c a then k s' g else None
      | EmptyString => None
      end
  | Cls p =>
      match s with
      | String a s' => if p a then k s' g else None
      | EmptyString => None
      end
  | Seq r1 r2 => exec r1 s g (fun s' g' => exec r2 s' g' k)
  | Alt r1 r2 =>
      match exec r1 s g k with
      | Some x => Some x
      | None => exec r2 s g k
      end
  | Opt r1 =>
      match exec r1 s g k with
      | Some x => Some x
      | None => k s g
      end
  | Star p => star p s g k
  | Group n r1 => exec r1 s g (fun s' g' => k s' ((n, consumed s s') :: g'))
  end.
End Exec.

(** [re.match(pattern, s)]: anchored at the start only; the result is
    the groups of the match. *)
Definition re_match (ignorecase : bool) (r : regex) (s : string) : option groups :=
  exec ignorecase r s [] (fun _ g => Some g).

(** Length of the match of [r] at the start of [s]. *)
Definition match_length (r : regex) (s : string) : option nat :=
  exec false r s [] (fun s' _ => Some (String.length s - String.length s')).

(** [re.sub(pattern, repl, s)] for a pattern that matches at least one
    character: scan left to right, replace each match by [repl] and
    resume after it ([skip] counts the matched characters still to be
    passed over). *)
Fixpoint sub_scan (r : regex) (repl : string) (skip : nat) (s : string) : string :=
  match s with
  | EmptyString => EmptyString
  | String a s' =>
      match skip with
      | S n => sub_scan r repl n s'
      | O =>
          match match_length r s with
          | Some (S n) => repl ++ sub_scan r repl n s'
          | _ => String a (sub_scan r repl 0 s')
          end
      end
  end.

Definition re_sub (r : regex) (repl s : string) : string := sub_scan r repl 0 s.

End Re.

(** ** The two patterns of [find_caption] *)

Import PyStr Re.

(** The class [[:.\-\s]]. *)
Definition is_sep (c : ascii) : bool :=
  Ascii.eqb c ":" || Ascii.eqb c "." || Ascii.eqb c "-" || isspace c.

(** [.], any character but a newline. *)
Definition dot (c : ascii) : bool := negb (Ascii.eqb c newline).

(** The class [[^\w\-]]. *)
Definition not_word_or_hyphen (c : ascii) : bool :=
  negb (isword c || Ascii.eqb c "-").

(** The pattern of [find_caption], the flag [(?i)] apart (it is given to
    [re_match]): group 1 is [Table|Fig(?:ure)?], then come [\s*], [\d+]
    and [[:.\-\s]*], and group 2 is [.*]. *)
Definition caption_re : regex :=
  Seq (Group 1 (Alt (Word "Table") (Seq (Word "Fig") (Opt (Word "ure")))))
  (Seq (Star isspace)
  (Seq (Plus isdigit)
  (Seq (Star is_sep)
       (Group 2 (Star dot))))).

(** [[^\w\-]+] *)
Definition unsafe_re : regex := Plus not_word_or_hyphen.

(** [re.match] of that pattern, flag set, on a line. *)
Definition match_caption (line : string) : option groups :=
  re_match true caption_re line.

(** ** Pages, as the converter observes them *)

(** A bounding box [(x0, top, x1, bottom)]. *)
Definition BBox : Type := (Z * Z * Z * Z)%type.

Definition bbox_area (b : BBox) : Z :=
  let '(x0, top, x1, bottom) := b in ((x1 - x0) * (bottom - top))%Z.

(** The [ValueError] raised by [within_bbox]. *)
Inductive ValueError : Type :=
| ZeroArea (b : BBox)               (* the bounding box has an area of zero *)
| OtherValueError (msg : string).   (* any other rejection of the box *)

(** The image rendered for a region, [to_image(...).original]. *)
Definition Raster : Type := list N.

(** A cropped page: its text and its rendering at a resolution. *)
Record Region : Type := {
  region_extract_text : option string;
  to_image : Z -> Raster
}.

(** An entry of [page.images]. *)
Record Image : Type := {
  img_x0 : Z;
  img_top : Z;
  img_x1 : Z;
  img_bottom : Z
}.

(** A table is a list of rows of cells. *)
Definition Table : Type := list (list (option string)).

Record Page : Type := {
  width : Z;
  height : Z;
  extract_text : option string;
  extract_tables : list Table;
  images : list Image;
  (** what cropping a box of non-zero area gives *)
  crop : BBox -> ValueError + Region
}.

(** [page.within_bbox(bbox)]: a box of zero area is refused. *)
Definition within_bbox (page : Page) (b : BBox) : ValueError + Region :=
  if (bbox_area b =? 0)%Z then inl (ZeroArea b) else crop page b.

(** ** [find_caption] *)

(** The lines 57-60: the caption made of group 2 of a match. *)
Definition caption_of_match (m : groups) : option string :=
  let caption := strip (or_empty (group 2 m)) in
  let caption := re_sub unsafe_re "_" caption in
  if is_empty caption then None else Some (take 40 caption).

(** [[line.strip() for line in text.split('\n') if line.strip()]] *)
Definition candidate_lines (text : string) : list string :=
  map strip (filter (fun line => negb (is_empty (strip line))) (split_lines text)).

(** The loop over the lines of one area: [Some r] when it returns [r],
    [None] when it runs to its end. *)
Fixpoint scan_lines (lines : list string) : option (option string) :=
  match lines with
  | [] => None
  | line :: rest =>
      match match_caption line with
      | Some m => Some (caption_of_match m)
      | None => scan_lines rest
      end
  end.

(** The loop over the search areas. *)
Fixpoint scan_areas (page : Page) (search_areas : list BBox) : option string :=
  match search_areas with
  | [] => None
  | area :: rest =>
      match within_bbox page area with
      | inl _ => scan_areas page rest          (* except ValueError: continue *)
      | inr region =>
          let text := or_empty (region_extract_text region) in
          match scan_lines (candidate_lines text) with
          | Some result => result
          | None => scan_areas page rest
          end
      end
  end.

Definition above_area (bbox : BBox) : BBox :=
  let '(x0, top, x1, bottom) := bbox in (x0, Z.max 0 (top - 40), x1, top)%Z.

Definition below_area (page : Page) (bbox : BBox) : BBox :=
  let '(x0, top, x1, bottom) := bbox in
  (x0, bottom, x1, Z.min (height page) (bottom + 40))%Z.

(** [find_caption(self, page, bbox, max_lines=2)]; [max_lines] is not
    read by the body. *)
Definition find_caption (page : Page) (bbox : BBox) : option string :=
  let search_areas := [above_area bbox; below_area page bbox] in
  scan_areas page search_areas.

(** ** What one conversion writes and prints *)

(** [output_dir / name] *)
Record Path : Type := { parent : string; name : string }.

Inductive Content : Type :=
| TextFile (text : string)          (* written by [save_text] *)
| CsvFile (rows : Table)            (* written by [save_table], a row per line *)
| PngFile (image : Raster).         (* written by [save_image] *)

Inductive Printed : Type :=
| SavedText (p : Path)              (* "Saved text to {text_path}" *)
| SavedTable (p : Path)             (* "Saved table to {table_path}" *)
| SavedImage (p : Path)             (* "Saved image to {img_path}" *)
| ErrorCropping (e : ValueError).   (* "Error cropping image: {e}" *)

(** The files written and the lines printed so far, oldest first, and the
    two counters. *)
Record State : Type := {
  saved : list (Path * Content);
  printed : list Printed;
  table_count : nat;
  image_count : nat
}.

Definition write (p : Path) (c : Content) (st : State) : State :=
  {| saved := saved st ++ [(p, c)]; printed := printed st;
     table_count := table_count st; image_count := image_count st |}.

Definition print (l : Printed) (st : State) : State :=
  {| saved := saved st; printed := printed st ++ [l];
     table_count := table_count st; image_count := image_count st |}.

Definition save_text (text : string) (output_path : Path) : State -> State :=
  write output_path (TextFile text).

Definition save_table (table : Table) (output_path : Path) : State -> State :=
  write output_path (CsvFile table).

Definition save_image (image : Raster) (output_path : Path) : State -> State :=
  write output_path (PngFile image).

Definition incr_table_count (st : State) : State :=
  {| saved := saved st; printed := printed st;
     table_count := table_count st + 1; image_count := image_count st |}.

Definition incr_image_count (st : State) : State :=
  {| saved := saved st; printed := printed st;
     table_count := table_count st; image_count := image_count st + 1 |}.

(** The flags of the converter read by the extraction. *)
Record PDFToTextConverter : Type := {
  convert_images : bool;
  convert_tables : bool
}.

(** [enumerate(l, start)] *)
Fixpoint enumerate {A : Type} (start : nat) (l : list A) : list (nat * A) :=
  match l with
  | [] => []
  | x :: l' => (start, x) :: enumerate (S start) l'
  end.

(** [if not caption: caption = fallback] *)
Definition caption_or (caption : option string) (fallback : string) : string :=
  match caption with
  | Some c => if is_empty c then fallback else c
  | None => fallback
  end.

(** The name [f"{stem}_{caption}_p{page_num}{ext}"]. *)
Definition artifact_name (stem caption : string) (page_num : nat) (ext : string) : string :=
  stem ++ "_" ++ caption ++ "_p" ++ str page_num ++ ext.

(** [convert_pdf_to_text], and the same loop at the head of
    [extract_and_save_from_pdf]. *)
Definition convert_pdf_to_text (pages : list Page) : string :=
  fold_left (fun text page => text ++ or_empty (extract_text page)) pages "".

Section Extract.
Variable self : PDFToTextConverter.
Variable stem : string.            (* [pdf_path.stem] *)
Variable output_dir : string.

(** The body of [for table in tables]. *)
Definition table_step (page_num : nat) (page : Page) (st : State) (table : Table) : State :=
  let caption := find_caption page (0, 0, width page, height page)%Z in
  let caption := caption_or caption ("table_" ++ str (table_count st)) in
  let table_path :=
    {| parent := output_dir; name := artifact_name stem caption page_num ".csv" |} in
  let st := save_table table table_path st in
  let st := print (SavedTable table_path) st in
  incr_table_count st.

(** The body of [for img in page.images]. *)
Definition image_step (page_num : nat) (page : Page) (st : State) (img : Image) : State :=
  let bbox := (img_x0 img, img_top img, img_x1 img, img_bottom img) in
  match within_bbox page bbox with
  | inl e => print (ErrorCropping e) st                 (* continue *)
  | inr region =>
      let cropped := to_image region 300 in
      let caption := find_caption page bbox in
      let caption := caption_or caption ("figure_" ++ str (image_count st)) in
      let img_path :=
        {| parent := output_dir; name := artifact_name stem caption page_num ".png" |} in
      let st := save_image cropped img_path st in
      let st := print (SavedImage img_path) st in
      incr_image_count st
  end.

(** The body of [for page_num, page in enumerate(pdf.pages, 1)]. *)
Definition page_step (st : State) (numbered : nat * Page) : State :=
  let '(page_num, page) := numbered in
  let st :=
    if convert_tables self
    then fold_left (table_step page_num page) (extract_tables page) st
    else st in
  if convert_images self
  then fold_left (image_step page_num page) (images page) st
  else st.

(** [extract_and_save_from_pdf(self, pdf_path, output_dir)] on the
    pages of the opened document. *)
Definition extract_and_save_from_pdf (pages : list Page) : State :=
  let text := fold_left (fun text page => text ++ or_empty (extract_text page)) pages "" in
  let text_path := {| parent := output_dir; name := stem ++ ".txt" |} in
  let st := {| saved := []; printed := []; table_count := 1; image_count := 1 |} in
  let st := save_text text text_path st in
  let st := print (SavedText text_path) st in
  fold_left page_step (enumerate 1 pages) st.
End Extract.

(** The names of the files written, in order. *)
Definition filenames (st : State) : list Path := map fst (saved st).

(** ** Example documents *)

Module Examples.

Definition blank : Region :=
  {| region_extract_text := None; to_image := fun _ => [] |}.

Definition bbox_eqb (a b : BBox) : bool :=
  let '(a0, a1, a2, a3) := a in
  let '(b0, b1, b2, b3) := b in
  ((a0 =? b0) && (a1 =? b1) && (a2 =? b2) && (a3 =? b3))%Z.

(** A 612 x 792 page whose text in the band [top..bottom] is given by
    [bands]; every other box crops to a region without text. *)
Definition page_of (text : option string) (tables : list Table) (imgs : list Image)
           (bands : list (BBox * string)) : Page :=
  {| width := 612; height := 792;
     extract_text := text; extract_tables := tables; images := imgs;
     crop := fun b =>
       match find (fun e => bbox_eqb (fst e) b) bands with
       | Some (_, t) =>
           inr {| region_extract_text := Some t; to_image := fun _ => [1%N] |}
       | None => inr blank
       end |}.

Definition grid_3x4 : Table :=
  [ [Some "Quarter"; Some "Q1"; Some "Q2"; Some "Q3"];
    [Some "North"; Some "10"; Some "12"; Some "9"];
    [Some "South"; Some "7"; Some "8"; Some "11"] ].

(** One page: the line "Table 1: Revenue by Quarter" above a 3 x 4 grid.
    Every box that is accepted crops to a region that shows the caption
    line. *)
Definition revenue_page : Page :=
  {| width := 612; height := 792;
     extract_text := Some "Table 1: Revenue by Quarter
Quarter Q1 Q2 Q3
North 10 12 9
South 7 8 11";
     extract_tables := [grid_3x4];
     images := [];
     crop := fun _ =>
       inr {| region_extract_text := Some "Table 1: Revenue by Quarter";
              to_image := fun _ => [] |} |}.

(** Where the grid is on that page. *)
Definition grid_box : BBox := (72, 100, 540, 300)%Z.

(** An image with the box (100, 200, 300, 400): the band above it is
    (100, 160, 300, 200), the band below (100, 400, 300, 440). *)
Definition figure : Image :=
  {| img_x0 := 100; img_top := 200; img_x1 := 300; img_bottom := 400 |}.

Definition figure_box : BBox := (100, 200, 300, 400)%Z.


(** A caption line with a label and a number and nothing else. *)
Definition empty_caption_page : Page :=
  page_of None [] [figure] [ ((100, 160, 300, 200)%Z, "Table 1:") ].

(** A long caption with characters to replace, after an unrelated line. *)
Definition long_caption_page : Page :=
  page_of None [] [figure]
          [ ((100, 160, 300, 200)%Z,
             "see below
  Figure 7 - Revenue / costs (all regions), fiscal year 2023: restated  ") ].

(** Two images side by side, each under a caption line with the same
    body. *)
Definition left_figure : Image :=
  {| img_x0 := 50; img_top := 200; img_x1 := 250; img_bottom := 400 |}.

Definition right_figure : Image :=
  {| img_x0 := 300; img_top := 200; img_x1 := 500; img_bottom := 400 |}.

Definition same_caption_page : Page :=
  page_of None [] [left_figure; right_figure]
          [ ((50, 160, 250, 200)%Z, "Fig 1: Sales");
            ((300, 160, 500, 200)%Z, "Fig 2: Sales") ].

(** Two tables, an image with no text around it and an image whose box
    has no height. *)
Definition flat_figure : Image :=
  {| img_x0 := 100; img_top := 500; img_x1 := 300; img_bottom := 500 |}.

Definition plain_page : Page :=
  page_of (Some "first page") [grid_3x4; grid_3x4] [flat_figure; figure] [].

(** An image at the top of the page, with a caption line under it. *)
Definition top_figure : Image :=
  {| img_x0 := 100; img_top := 0; img_x1 := 300; img_bottom := 150 |}.

Definition top_figure_page : Page :=
  page_of None [] [top_figure] [ ((100, 150, 300, 190)%Z, "Figure 3. Overview") ].

Definition tables_only : PDFToTextConverter :=
  {| convert_images := false; convert_tables := true |}.

Definition images_only : PDFToTextConverter :=
  {| convert_images := true; convert_tables := false |}.

Definition both : PDFToTextConverter :=
  {| convert_images := true; convert_tables := true |}.

End Examples.

(** ** Definitions used to state the properties *)

(** The lines [find_caption] looks at in one area: none when the area is
    refused. *)
Definition area_lines (page : Page) (area : BBox) : list string :=
  match within_bbox page area with
  | inl _ => []
  | inr region => candidate_lines (or_empty (region_extract_text region))
  end.

(** All the lines looked at, the band above first. *)
Definition searched_lines (page : Page) (bbox : BBox) : list string :=
  area_lines page (above_area bbox) ++ area_lines page (below_area page bbox).

Definition matches (line : string) : bool :=
  match match_caption line with Some _ => true | None => false end.

(** The first line, in that order, that the pattern matches. *)
Definition first_match (page : Page) (bbox : BBox) : option string :=
  find matches (searched_lines page bbox).

(** The caption body of a line: group 2 of its match. *)
Definition caption_body (line : string) : option string :=
  match match_caption line with
  | Some m => group 2 m
  | None => None
  end.

(** [w] is a prefix of [s] up to case: what follows it. *)
Fixpoint strip_prefix_ci (w s : string) : option string :=
  match w with
  | EmptyString => Some s
  | String c w' =>
      match s with
      | String a s' =>
          if Ascii.eqb (lower a) (lower c) then strip_prefix_ci w' s' else None
      | EmptyString => None
      end
  end.

(** Following the words of the specification, with a mandatory label:
    the label Table, Figure or Fig in any case, what follows it. *)
Definition after_label (line : string) : option string :=
  match strip_prefix_ci "Table" line with
  | Some rest => Some rest
  | None =>
      match strip_prefix_ci "Figure" line with
      | Some rest => Some rest
      | None => strip_prefix_ci "Fig" line
      end
  end.

(** Optional whitespace, one or more digits, zero or more separators,
    and the remainder of the line as the caption body. *)
Definition number_and_body (rest : string) : option string :=
  match drop_while isspace rest with
  | String d rest' =>
      if isdigit d
      then Some (take_while dot (drop_while is_sep (drop_while isdigit rest')))
      else None
  | EmptyString => None
  end.

Definition labelled_caption (line : string) : option string :=
  match after_label line with
  | Some rest => number_and_body rest
  | None => None
  end.

(** Following the words of the specification: the maximal runs of a
    string, each with whether its characters are in the class [p]. *)
Fixpoint runs (p : ascii -> bool) (s : string) : list (bool * string) :=
  match s with
  | EmptyString => []
  | String a s' =>
      match runs p s' with
      | (b, r) :: rs =>
          if Bool.eqb (p a) b then (b, String a r) :: rs
          else (p a, String a EmptyString) :: (b, r) :: rs
      | [] => [(p a, String a EmptyString)]
      end
  end.

(** Every run in the class replaced by [repl], the others kept. *)
Definition replace_runs (p : ascii -> bool) (repl s : string) : string :=
  fold_right (fun (run : bool * string) acc => (if fst run then repl else snd run) ++ acc)
             EmptyString (runs p s).

(** One pass over the string replacing the runs: [in_run] tells that
    the previous character was in the class. *)
Fixpoint squeeze (p : ascii -> bool) (repl : string) (in_run : bool) (s : string) : string :=
  match s with
  | EmptyString => EmptyString
  | String a s' =>
      if p a then (if in_run then squeeze p repl true s' else repl ++ squeeze p repl true s')
      else String a (squeeze p repl false s')
  end.

(** [s[n:]] *)
Fixpoint drop (n : nat) (s : string) : string :=
  match n, s with
  | S n', String _ s' => drop n' s'
  | _, _ => s
  end.

(** What follows the label in the pattern: [\s*\d+[:.\-\s]*] and
    group 2. *)
Definition number_re : regex :=
  Seq (Star isspace) (Seq (Plus isdigit) (Seq (Star is_sep) (Group 2 (Star dot)))).

(** What [find_caption] returns when [line] is the first line matched. *)
Definition caption_of_line (line : string) : option string :=
  match match_caption line with
  | Some m => caption_of_match m
  | None => None
  end.

(** The pattern as the specification describes it, the label optional:
    a label when there is one, then the number and the body. *)
Definition optional_label_caption (line : string) : option string :=
  match after_label line with
  | Some rest => number_and_body rest
  | None => number_and_body line
  end.

(** The page's full bounding box, as the table loop passes it. *)
Definition full_bbox (page : Page) : BBox := (0, 0, width page, height page)%Z.

(** The box of an image, as the image loop builds it. *)
Definition image_bbox (img : Image) : BBox :=
  (img_x0 img, img_top img, img_x1 img, img_bottom img).

(** The strings of a list put end to end, with no separator. *)
Definition join (l : list string) : string := fold_right append EmptyString l.

(** The tables of the pages numbered from [start], in document order,
    each with its page number. *)
Definition tables_from (start : nat) (pages : list Page) : list (nat * Table) :=
  flat_map (fun numbered : nat * Page =>
              map (fun table => (fst numbered, table)) (extract_tables (snd numbered)))
           (enumerate start pages).

(** The images of a page that crop without error, each with the region
    obtained. *)
Definition cropped (page_num : nat) (page : Page) (imgs : list Image)
  : list (nat * Page * Image * Region) :=
  flat_map (fun img =>
              match within_bbox page (image_bbox img) with
              | inr region => [(page_num, page, img, region)]
              | inl _ => []
              end) imgs.

(** The same over the pages numbered from [start], in document order. *)
Definition cropped_from (start : nat) (pages : list Page)
  : list (nat * Page * Image * Region) :=
  flat_map (fun numbered : nat * Page =>
              cropped (fst numbered) (snd numbered) (images (snd numbered)))
           (enumerate start pages).

(** The file of the table that is the [k]-th of the document. *)
Definition table_file (stem output_dir : string) (entry : nat * (nat * Table))
  : Path * Content :=
  let '(k, (page_num, table)) := entry in
  ({| parent := output_dir;
      name := artifact_name stem ("table_" ++ str k) page_num ".csv" |},
   CsvFile table).

(** The file of the image that is the [k]-th cropped of the document. *)
Definition image_file (stem output_dir : string)
           (entry : nat * (nat * Page * Image * Region)) : Path * Content :=
  let '(k, (page_num, page, img, region)) := entry in
  ({| parent := output_dir;
      name := artifact_name stem
                (caption_or (find_caption page (image_bbox img)) ("figure_" ++ str k))
                page_num ".png" |},
   PngFile (to_image region 300)).

Definition is_txt (f : Path * Content) : bool :=
  match snd f with TextFile _ => true | _ => false end.

Definition is_csv (f : Path * Content) : bool :=
  match snd f with CsvFile _ => true | _ => false end.

Definition is_png (f : Path * Content) : bool :=
  match snd f with PngFile _ => true | _ => false end.

(** A page with other images and nothing else changed. *)
Definition with_images (page : Page) (imgs : list Image) : Page :=
  {| width := width page; height := height page;
     extract_text := extract_text page; extract_tables := extract_tables page;
     images := imgs; crop := crop page |}.

Section Written.
Variable self : PDFToTextConverter.
Variable stem : string.
Variable output_dir : string.

(** The tables written for the pages numbered from [start] when the
    table counter is [k]. *)
Definition table_files (k start : nat) (pages : list Page) : list (Path * Content) :=
  if convert_tables self
  then map (table_file stem output_dir) (enumerate k (tables_from start pages))
  else [].

(** The images written for the pages numbered from [start] when the
    image counter is [k]. *)
Definition image_files (k start : nat) (pages : list Page) : list (Path * Content) :=
  if convert_images self
  then map (image_file stem output_dir) (enumerate k (cropped_from start pages))
  else [].

Definition tables_seen (start : nat) (pages : list Page) : nat :=
  if convert_tables self then List.length (tables_from start pages) else 0.

Definition images_seen (start : nat) (pages : list Page) : nat :=
  if convert_images self then List.length (cropped_from start pages) else 0.

End Written.

(** Every character is a decimal digit. *)
Fixpoint all_digits (s : string) : bool :=
  match s with
  | EmptyString => true
  | String a s' => isdigit a && all_digits s'
  end.

(** Two runs that differ by one printed line [e] only: the same files
    written, the same counters, and [e] printed in the first run at a
    place where the second prints nothing. *)
Definition skipped (e : Printed) (st st' : State) : Prop :=
  saved st = saved st'
  /\ table_count st = table_count st'
  /\ image_count st = image_count st'
  /\ exists before after,
      printed st = (before ++ e :: after)%list
      /\ printed st' = (before ++ after)%list.

(** ** The rest of the converter *)

(** [s.lower()] *)
Fixpoint str_lower (s : string) : string :=
  match s with
  | EmptyString => EmptyString
  | String a s' => String (lower a) (str_lower s')
  end.

(** A path handed to [pdfplumber.open]: its stem and the pages of the
    document, [None] when opening raises. *)
Record PdfPath : Type := {
  pdf_stem : string;
  pdf_open : option (list Page)
}.

(** What [convert] observes of [self.input_path]. *)
Record InputPath : Type := {
  is_file : bool;
  is_dir : bool;
  path_suffix : string;              (* [input_path.suffix] *)
  path_name : string;                (* [input_path.name] *)
  as_pdf : PdfPath;                  (* the path itself, opened as a PDF *)
  glob_pdf : list PdfPath            (* [input_path.glob('*.pdf')], as yielded *)
}.

(** A line printed during [convert]. *)
Inductive Console : Type :=
| Document (l : Printed)             (* a line of [extract_and_save_from_pdf] *)
| InvalidInput.                      (* "Invalid file or directory. ..." *)

(** What one call of [convert] leaves: the files written and the lines
    printed, oldest first, and whether it ended by an exception. *)
Record Run : Type := {
  written : list (Path * Content);
  console : list Console;
  raised : bool
}.

Definition nothing : Run := {| written := []; console := []; raised := false |}.

Section Convert.
Variable self : PDFToTextConverter.
(** [self.output_folder]. *)
Variable output_folder : string.
(** [a / b] of pathlib, on the text of the two paths. *)
Variable joinpath : string -> string -> string.

(** One call [self.extract_and_save_from_pdf(pdf_path, output_dir)] in
    a run: nothing happens once an exception is on its way; opening may
    raise; else the document is extracted, its counters starting at 1. *)
Definition extract_call (output_dir : string) (run : Run) (pdf_path : PdfPath) : Run :=
  if raised run then run
  else
    match pdf_open pdf_path with
    | None => {| written := written run; console := console run; raised := true |}
    | Some pages =>
        let st := extract_and_save_from_pdf self (pdf_stem pdf_path) output_dir pages in
        {| written := written run ++ saved st;
           console := console run ++ map Document (printed st);
           raised := false |}
    end.

(** [convert(self)] *)
Definition convert (input_path : InputPath) : Run :=
  if is_file input_path && String.eqb (str_lower (path_suffix input_path)) ".pdf" then
    let output_dir := output_folder in
    extract_call output_dir nothing (as_pdf input_path)
  else if is_dir input_path then
    let subfolder := joinpath output_folder (path_name input_path) in
    fold_left (extract_call subfolder) (glob_pdf input_path) nothing
  else
    {| written := []; console := [InvalidInput]; raised := false |}.
End Convert.

(** Every character of a string is in the class [p]. *)
Fixpoint all_chars (p : ascii -> bool) (s : string) : bool :=
  match s with
  | EmptyString => true
  | String a s' => p a && all_chars p s'
  end.

(** A word character or a hyphen. *)
Definition safe_char (c : ascii) : bool := isword c || Ascii.eqb c "-".

(** The line printed when a file is written. *)
Definition report (f : Path * Content) : Printed :=
  match snd f with
  | TextFile _ => SavedText (fst f)
  | CsvFile _ => SavedTable (fst f)
  | PngFile _ => SavedImage (fst f)
  end.

Definition is_error (l : Printed) : bool :=
  match l with ErrorCropping _ => true | _ => false end.

(** The images of a page that do not crop. *)
Definition refused (page : Page) (imgs : list Image) : list Image :=
  filter (fun img =>
            match within_bbox page (image_bbox img) with
            | inl _ => true
            | inr _ => false
            end) imgs.

(** The same over the pages of a document. *)
Definition refused_from (pages : list Page) : list Image :=
  flat_map (fun page => refused page (images page)) pages.

(** The files [convert] writes for a list of documents that all open. *)
Definition documents_files (self : PDFToTextConverter) (output_dir : string)
           (pdfs : list PdfPath) : list (Path * Content) :=
  flat_map (fun pdf =>
              match pdf_open pdf with
              | Some pages =>
                  saved (extract_and_save_from_pdf self (pdf_stem pdf) output_dir pages)
              | None => []
              end) pdfs.

(** The lines [convert] prints for a list of documents that all open. *)
Definition documents_console (self : PDFToTextConverter) (output_dir : string)
           (pdfs : list PdfPath) : list Console :=
  flat_map (fun pdf =>
              match pdf_open pdf with
              | Some pages =>
                  map Document
                      (printed (extract_and_save_from_pdf self (pdf_stem pdf)
                                                          output_dir pages))
              | None => []
              end) pdfs.

(** The input is a file whose suffix is [.pdf] in any case. *)
Definition is_pdf_file (input_path : InputPath) : bool :=
  is_file input_path && String.eqb (str_lower (path_suffix input_path)) ".pdf".

Definition opens (pdf : PdfPath) : bool :=
  match pdf_open pdf with Some _ => true | None => false end.

(** The lines printed tell every file written, in order, and hold [n]
    error lines. *)
Definition reported (n : nat) (st : State) : Prop :=
  filter (fun l => negb (is_error l)) (printed st) = map report (saved st)
  /\ List.length (filter is_error (printed st)) = n.

(** ** Example inputs of [convert] *)

Module Inputs.

(** A directory [docs] where the glob yields three paths, the second
    of which is not a readable PDF. *)
Definition first_pdf : PdfPath :=
  {| pdf_stem := "a"; pdf_open := Some [Examples.plain_page] |}.

Definition broken_pdf : PdfPath := {| pdf_stem := "b"; pdf_open := None |}.

Definition last_pdf : PdfPath :=
  {| pdf_stem := "c"; pdf_open := Some [Examples.revenue_page] |}.

Definition docs_with (pdfs : list PdfPath) : InputPath :=
  {| is_file := false; is_dir := true; path_suffix := ""; path_name := "docs";
     as_pdf := broken_pdf; glob_pdf := pdfs |}.

Definition slash (a b : string) : string := a ++ "/" ++ b.

End Inputs.

(** ** The name fragment of an image *)

(** The page number of a cropped image of the document. *)
Definition entry_page (entry : nat * (nat * Page * Image * Region)) : nat :=
  let '(_, (page_num, _, _, _)) := entry in page_num.

(** The caption found for it. *)
Definition entry_caption (entry : nat * (nat * Page * Image * Region)) : option string :=
  let '(_, (_, page, img, _)) := entry in find_caption page (image_bbox img).

(** What tells its file name apart: the caption when one is found, the
    counter otherwise, and the page number. *)
Definition image_label (entry : nat * (nat * Page * Image * Region)) : string * nat :=
  (caption_or (entry_caption entry) ("figure_" ++ str (fst entry)), entry_page entry).

(** The labels of the images written for a document, in order. *)
Definition image_labels (self : PDFToTextConverter) (pages : list Page)
  : list (string * nat) :=
  if convert_images self
  then map image_label (enumerate 1 (cropped_from 1 pages))
  else [].

(** The path of the image file with a given label. *)
Definition label_path (stem output_dir : string) (label : string * nat) : Path :=
  {| parent := output_dir; name := artifact_name stem (fst label) (snd label) ".png" |}.

Module Captions.

(** Two images side by side, each under a caption line of its own. *)
Definition distinct_captions_page : Page :=
  Examples.page_of None [] [Examples.left_figure; Examples.right_figure]
                   [ ((50, 160, 250, 200)%Z, "Fig 1: Sales");
                     ((300, 160, 500, 200)%Z, "Fig 2: Costs") ].

End Captions.

(** * Properties *)

(** ** Strings *)

Lemma take_length_le (n : nat) (s : string) : String.length (take n s) <= n.
Proof.
  revert s; induction n as [|n IH]; intros [|a s]; simpl; try lia.
  specialize (IH s); lia.
Qed.

Lemma drop_while_length_le (p : ascii -> bool) (s : string) :
  String.length (drop_while p s) <= String.length s.
Proof.
  induction s as [|a s IH]; simpl; [lia|].
  destruct (p a); simpl; lia.
Qed.

Lemma consumed_drop_while (p : ascii -> bool) (s : string) :
  consumed s (drop_while p s) = take_while p s.
Proof.
  unfold consumed. induction s as [|a s IH]; [reflexivity|].
  cbn [drop_while take_while]. destruct (p a) eqn:Hp.
  - pose proof (drop_while_length_le p s) as Hle.
    cbn [String.length].
    replace (S (String.length s) - String.length (drop_while p s))
      with (S (String.length s - String.length (drop_while p s))) by lia.
    cbn [take]. now rewrite IH.
  - now rewrite Nat.sub_diag.
Qed.

Lemma drop_take_while (p : ascii -> bool) (s : string) :
  drop (String.length (take_while p s)) s = drop_while p s.
Proof.
  induction s as [|a s IH]; simpl; [reflexivity|].
  destruct (p a); simpl; [exact IH | reflexivity].
Qed.

(** ** Character classes *)

Lemma space_not_digit (a : ascii) : isspace a = true -> isdigit a = false.
Proof.
  destruct a as [[] [] [] [] [] [] [] []]; vm_compute; congruence.
Qed.

Lemma lower_u_not_space_digit (a : ascii) :
  Ascii.eqb (lower a) (lower "u") = true -> isspace a = false /\ isdigit a = false.
Proof.
  destruct a as [[] [] [] [] [] [] [] []]; vm_compute; intuition congruence.
Qed.

Lemma lower_t_not_f (a : ascii) :
  Ascii.eqb (lower a) (lower "T") = true -> Ascii.eqb (lower a) (lower "F") = false.
Proof.
  destruct a as [[] [] [] [] [] [] [] []]; vm_compute; congruence.
Qed.

(** ** The matcher *)

Section Star.
Context {R : Type}.
Variable p : ascii -> bool.
Variable k : string -> groups -> option R.

(** When what follows the star always matches, the star keeps the
    longest run. *)
Lemma star_total (s : string) (g : groups) :
  (forall s' g', k s' g' <> None) ->
  star p s g k = k (drop_while p s) g.
Proof.
  intros Hk. induction s as [|a s IH]; simpl; [reflexivity|].
  destruct (p a); [|reflexivity].
  rewrite IH. destruct (k (drop_while p s) g) eqn:E; [reflexivity|].
  now apply Hk in E.
Qed.

(** When what follows the star refuses every input that starts in the
    class, giving characters back never helps. *)
Lemma star_exclusive (s : string) (g : groups) :
  (forall a t g', p a = true -> k (String a t) g' = None) ->
  star p s g k = k (drop_while p s) g.
Proof.
  intros Hk. induction s as [|a s IH]; simpl; [reflexivity|].
  destruct (p a) eqn:Hp; [|reflexivity].
  rewrite IH. destruct (k (drop_while p s) g) eqn:E; [reflexivity|].
  now apply Hk.
Qed.
End Star.

Lemma exec_Word {R : Type} (w s : string) (g : groups) (k : string -> groups -> option R) :
  exec true (Word w) s g k
  = match strip_prefix_ci w s with
    | Some rest => k rest g
    | None => None
    end.
Proof.
  revert s; induction w as [|c w IH]; intros s; simpl; [reflexivity|].
  destruct s as [|a s]; [reflexivity|].
  unfold lit_eqb. destruct (Ascii.eqb (lower a) (lower c)); [apply IH | reflexivity].
Qed.

Lemma strip_prefix_ci_app (w1 w2 s : string) :
  strip_prefix_ci (w1 ++ w2) s
  = match strip_prefix_ci w1 s with
    | Some rest => strip_prefix_ci w2 rest
    | None => None
    end.
Proof.
  revert s; induction w1 as [|c w1 IH]; intros s; simpl; [reflexivity|].
  destruct s as [|a s]; [reflexivity|].
  destruct (Ascii.eqb (lower a) (lower c)); [apply IH | reflexivity].
Qed.

Lemma exec_number_re (s : string) (g : groups) :
  exec true number_re s g (fun _ g' => Some g')
  = match number_and_body s with
    | Some body => Some ((2, body) :: g)
    | None => None
    end.
Proof.
  unfold number_re, number_and_body, Plus. cbn [exec].
  rewrite star_exclusive.
  2:{ intros a t g' Ha. now rewrite (space_not_digit a Ha). }
  destruct (drop_while isspace s) as [|d rest]; [reflexivity|].
  destruct (isdigit d); [|reflexivity].
  rewrite star_total.
  2:{ intros s' g'. rewrite star_total by (intros; rewrite star_total; discriminate).
      rewrite star_total; discriminate. }
  rewrite star_total by (intros; rewrite star_total; discriminate).
  rewrite star_total by discriminate.
  now rewrite consumed_drop_while.
Qed.

Lemma number_and_body_u (a : ascii) (t : string) :
  Ascii.eqb (lower a) (lower "u") = true -> number_and_body (String a t) = None.
Proof.
  intros H. destruct (lower_u_not_space_digit a H) as [Hs Hd].
  unfold number_and_body. simpl. now rewrite Hs, Hd.
Qed.

(** The matcher on the caption pattern computes [labelled_caption]:
    the groups of a match are the label and the body. *)
Lemma match_caption_groups (line : string) :
  match_caption line
  = match after_label line with
    | Some rest =>
        match number_and_body rest with
        | Some body => Some [(2, body); (1, consumed line rest)]
        | None => None
        end
    | None => None
    end.
Proof.
  unfold match_caption, re_match, caption_re, after_label.
  change (Seq (Star isspace) (Seq (Plus isdigit) (Seq (Star is_sep) (Group 2 (Star dot)))))
    with number_re.
  cbn [exec]. rewrite !exec_Word.
  destruct (strip_prefix_ci "Table" line) as [rest|] eqn:Et.
  - rewrite exec_number_re.
    destruct (number_and_body rest) as [body|]; [reflexivity|].
    destruct line as [|a line]; [discriminate|]. simpl in Et |- *.
    destruct (Ascii.eqb (lower a) (lower "T")) eqn:Ea; [|discriminate].
    now rewrite (lower_t_not_f a Ea).
  - destruct (strip_prefix_ci "Fig" line) as [rest|] eqn:Ef.
    + cbn [exec]. rewrite exec_Word.
      change "Figure" with ("Fig" ++ "ure").
      rewrite strip_prefix_ci_app, Ef.
      destruct (strip_prefix_ci "ure" rest) as [r|] eqn:Eu.
      * rewrite exec_number_re.
        destruct (number_and_body r) as [body|]; [reflexivity|].
        rewrite exec_number_re.
        destruct rest as [|a t]; [discriminate|]. simpl in Eu.
        destruct (Ascii.eqb (lower a) (lower "u")) eqn:Ea; [|discriminate].
        now rewrite (number_and_body_u a t Ea).
      * rewrite exec_number_re.
        destruct (number_and_body rest) as [body|]; reflexivity.
    + change "Figure" with ("Fig" ++ "ure").
      now rewrite strip_prefix_ci_app, Ef.
Qed.

Lemma match_caption_body (line : string) :
  caption_body line = labelled_caption line.
Proof.
  unfold caption_body, labelled_caption. rewrite match_caption_groups.
  destruct (after_label line) as [rest|]; [|reflexivity].
  destruct (number_and_body rest); reflexivity.
Qed.

Lemma matches_labelled (line : string) :
  matches line = true <-> exists body, labelled_caption line = Some body.
Proof.
  unfold matches, labelled_caption. rewrite match_caption_groups.
  destruct (after_label line) as [rest|].
  - destruct (number_and_body rest) as [body|]; split; intros H;
      try discriminate; eauto. now destruct H.
  - split; [discriminate | now intros []].
Qed.

(** ** The substitution *)

Section Runs.
Variable p : ascii -> bool.
Variable repl : string.

Lemma take_drop_while_length (s : string) :
  String.length (take_while p s) + String.length (drop_while p s) = String.length s.
Proof.
  induction s as [|a s IH]; simpl; [reflexivity|].
  destruct (p a); simpl; lia.
Qed.

Lemma match_length_Plus (a : ascii) (s : string) :
  match_length (Plus p) (String a s)
  = if p a then Some (S (String.length (take_while p s))) else None.
Proof.
  unfold match_length, Plus. cbn [exec].
  destruct (p a); [|reflexivity].
  rewrite star_total by discriminate.
  f_equal. pose proof (take_drop_while_length s). cbn [String.length]. lia.
Qed.

Lemma sub_scan_skip (r : regex) (n : nat) (s : string) :
  sub_scan r repl n s = sub_scan r repl 0 (drop n s).
Proof.
  revert n; induction s as [|a s IH]; intros [|n]; try reflexivity.
  cbn [sub_scan drop]. apply IH.
Qed.

Lemma squeeze_in_run (s : string) :
  squeeze p repl true s = squeeze p repl false (drop_while p s).
Proof.
  induction s as [|a s IH]; simpl; [reflexivity|].
  destruct (p a) eqn:Hp; [exact IH|]. simpl. now rewrite Hp.
Qed.

(** The scan of [re.sub] for the pattern [c+] is the one-pass squeeze. *)
Lemma sub_scan_squeeze (s : string) :
  re_sub (Plus p) repl s = squeeze p repl false s.
Proof.
  unfold re_sub.
  remember (String.length s) as n eqn:Hn.
  revert s Hn. induction n as [n IH] using lt_wf_ind. intros s Hn.
  destruct s as [|a s]; [reflexivity|].
  cbn [sub_scan squeeze]. rewrite match_length_Plus.
  destruct (p a).
  - rewrite sub_scan_skip, drop_take_while, squeeze_in_run. f_equal.
    apply (IH (String.length (drop_while p s))); [|reflexivity].
    pose proof (drop_while_length_le p s). subst n. simpl. lia.
  - f_equal. apply (IH (String.length s)); [|reflexivity]. subst n. simpl. lia.
Qed.

Lemma runs_head (a : ascii) (s : string) :
  exists r rs, runs p (String a s) = (p a, String a r) :: rs.
Proof.
  simpl. destruct (runs p s) as [|[b r] rs]; [now eexists _, _|].
  destruct (Bool.eqb (p a) b) eqn:E.
  - apply Bool.eqb_prop in E. subst b. now eexists _, _.
  - now eexists _, _.
Qed.

(** Replacing the maximal runs is the one-pass squeeze. *)
Lemma replace_runs_squeeze (s : string) :
  replace_runs p repl s = squeeze p repl false s.
Proof.
  unfold replace_runs. induction s as [|a s IH]; [reflexivity|].
  destruct s as [|a' s'].
  - simpl. destruct (p a); reflexivity.
  - destruct (runs_head a' s') as (r & rs & Hr).
    change (runs p (String a (String a' s')))
      with (match runs p (String a' s') with
            | (b, r) :: rs =>
                if Bool.eqb (p a) b then (b, String a r) :: rs
                else (p a, String a EmptyString) :: (b, r) :: rs
            | [] => [(p a, String a EmptyString)]
            end).
    rewrite Hr in IH |- *.
    cbn [squeeze] in IH |- *. cbn [fold_right fst snd] in IH.
    destruct (p a) eqn:Ha, (p a') eqn:Ha'; cbn [Bool.eqb fold_right fst snd].
    + exact IH.
    + f_equal. exact IH.
    + cbn [append]. f_equal. exact IH.
    + cbn [append] in IH |- *. f_equal. exact IH.
Qed.

Lemma re_sub_replace_runs (s : string) :
  re_sub (Plus p) repl s = replace_runs p repl s.
Proof. now rewrite sub_scan_squeeze, replace_runs_squeeze. Qed.

End Runs.

(** ** The search of [find_caption] *)

Lemma find_app_first {A : Type} (f : A -> bool) (l1 l2 : list A) :
  find f (l1 ++ l2) = match find f l1 with Some x => Some x | None => find f l2 end.
Proof.
  induction l1 as [|x l1 IH]; simpl; [reflexivity|].
  destruct (f x); [reflexivity | exact IH].
Qed.

Lemma scan_lines_find (lines : list string) :
  scan_lines lines
  = match find matches lines with
    | Some line => Some (caption_of_line line)
    | None => None
    end.
Proof.
  induction lines as [|line lines IH]; simpl; [reflexivity|].
  unfold matches at 1.
  destruct (match_caption line) eqn:E; [|exact IH].
  unfold caption_of_line. now rewrite E.
Qed.

(** [find_caption] returns the caption of the first line matched, the
    band above searched before the band below. *)
Lemma find_caption_first_match (page : Page) (bbox : BBox) :
  find_caption page bbox
  = match first_match page bbox with
    | Some line => caption_of_line line
    | None => None
    end.
Proof.
  unfold find_caption, first_match, searched_lines, area_lines.
  rewrite find_app_first. cbn [scan_areas].
  destruct (within_bbox page (above_area bbox)) as [e|ra];
    destruct (within_bbox page (below_area page bbox)) as [e'|rb];
    cbn [find]; rewrite ?scan_lines_find;
    repeat match goal with
           | |- context [find matches ?l] => destruct (find matches l)
           end; reflexivity.
Qed.


(** The caption made of a match is the cleaned body cut at 40
    characters, and is never empty. *)
Lemma caption_of_match_some (m : groups) (c : string) :
  caption_of_match m = Some c ->
  c = take 40 (replace_runs not_word_or_hyphen "_" (strip (or_empty (group 2 m))))
  /\ c <> EmptyString.
Proof.
  unfold caption_of_match, unsafe_re. rewrite re_sub_replace_runs.
  destruct (replace_runs not_word_or_hyphen "_" (strip (or_empty (group 2 m))))
    as [|a s]; [discriminate|].
  cbn [is_empty]. intros [= <-]. split; [reflexivity | discriminate].
Qed.

Lemma find_caption_nonempty (page : Page) (bbox : BBox) :
  find_caption page bbox <> Some EmptyString.
Proof.
  rewrite find_caption_first_match.
  destruct (first_match page bbox) as [line|]; [|discriminate].
  unfold caption_of_line. destruct (match_caption line) as [m|]; [|discriminate].
  intros H. now apply caption_of_match_some in H as [_ H].
Qed.

Lemma digit_no_label (d : ascii) (rest : string) :
  isdigit d = true -> after_label (String d rest) = None.
Proof.
  unfold after_label. simpl.
  destruct d as [[] [] [] [] [] [] [] []]; vm_compute; congruence.
Qed.

Lemma match_caption_group2 (line : string) (m : groups) :
  match_caption line = Some m ->
  exists body, group 2 m = Some body /\ caption_body line = Some body.
Proof.
  intros H. unfold caption_body. rewrite H.
  rewrite match_caption_groups in H.
  destruct (after_label line) as [rest|]; [|discriminate].
  destruct (number_and_body rest) as [body|]; [|discriminate].
  injection H as <-. now exists body.
Qed.

Lemma full_bbox_above_zero (page : Page) :
  bbox_area (above_area (full_bbox page)) = 0%Z.
Proof. unfold full_bbox, above_area, bbox_area. cbn. lia. Qed.

Lemma full_bbox_below_zero (page : Page) :
  bbox_area (below_area page (full_bbox page)) = 0%Z.
Proof.
  unfold full_bbox, below_area, bbox_area.
  rewrite Z.min_l by lia. lia.
Qed.

Lemma find_caption_full_bbox (page : Page) :
  find_caption page (full_bbox page) = None.
Proof.
  unfold find_caption. cbn [scan_areas]. unfold within_bbox.
  now rewrite full_bbox_above_zero, full_bbox_below_zero.
Qed.

(** ** The caption pattern and the cleaning of the body *)

(** C3, as the code has it: when the body of the first line matched is
    empty once cleaned, [find_caption] returns [None], the absence of a
    caption, and no string at all. *)
Theorem find_caption_empty_body_none
        (page : Page) (bbox : BBox) (line body : string) :
  first_match page bbox = Some line ->
  caption_body line = Some body ->
  re_sub unsafe_re "_" (strip body) = EmptyString ->
  find_caption page bbox = None.
Proof.
  intros Hfirst Hbody Hclean.
  rewrite find_caption_first_match, Hfirst.
  unfold caption_of_line. unfold caption_body in Hbody.
  destruct (match_caption line) as [m|]; [|reflexivity].
  unfold caption_of_match. rewrite Hbody. cbn [or_empty].
  now rewrite Hclean.
Qed.

Lemma find_caption_empty_body_none_witness :
  first_match Examples.empty_caption_page Examples.figure_box = Some "Table 1:"
  /\ caption_body "Table 1:" = Some ""
  /\ re_sub unsafe_re "_" (strip "") = ""
  /\ find_caption Examples.empty_caption_page Examples.figure_box = None.
Proof.
  assert (H1 : first_match Examples.empty_caption_page Examples.figure_box
               = Some "Table 1:") by (vm_compute; reflexivity).
  assert (H2 : caption_body "Table 1:" = Some "") by (vm_compute; reflexivity).
  assert (H3 : re_sub unsafe_re "_" (strip "") = "") by (vm_compute; reflexivity).
  exact (conj H1 (conj H2 (conj H3
           (find_caption_empty_body_none
              Examples.empty_caption_page Examples.figure_box "Table 1:" ""
              H1 H2 H3)))).
Defined.

(** C3 as stated fails: on a caption line whose body is empty once
    cleaned, the result is not the string "no caption found". *)
Lemma find_caption_no_caption_found_string :
  first_match Examples.empty_caption_page Examples.figure_box = Some "Table 1:"
  /\ caption_body "Table 1:" = Some ""
  /\ re_sub unsafe_re "_" (strip "") = ""
  /\ find_caption Examples.empty_caption_page Examples.figure_box
     <> Some "no caption found".
Proof.
  repeat split; try (vm_compute; reflexivity).
  vm_compute. discriminate.
Qed.

(** C4, as the code has it: the label is mandatory.  A line matches
    exactly when it starts with Table, Figure or Fig in any case,
    followed by optional whitespace and one or more digits; the body is
    what remains of the line after the separators that follow the
    digits; a line that starts with a digit does not match. *)
Theorem caption_pattern_requires_label (line : string) :
  caption_body line = labelled_caption line
  /\ (matches line = true <-> exists body, labelled_caption line = Some body)
  /\ (forall d rest, line = String d rest -> isdigit d = true ->
      match_caption line = None).
Proof.
  split; [apply match_caption_body|]. split; [apply matches_labelled|].
  intros d rest -> Hd. rewrite match_caption_groups.
  now rewrite (digit_no_label d rest Hd).
Qed.

(** C4 as stated fails: with an optional label the line
    "1: Revenue by Quarter" would match with the body
    "Revenue by Quarter"; the pattern of the code does not match it. *)
Lemma caption_pattern_label_not_optional :
  optional_label_caption "1: Revenue by Quarter" = Some "Revenue by Quarter"
  /\ match_caption "1: Revenue by Quarter" = None
  /\ caption_body "1: Revenue by Quarter"
     <> optional_label_caption "1: Revenue by Quarter".
Proof.
  repeat split; try (vm_compute; reflexivity).
  vm_compute. discriminate.
Qed.

(** C5: a caption returned by [find_caption] is the body of the first
    line matched, stripped, with every maximal run of characters that
    are neither word characters nor hyphens replaced by one underscore,
    cut at 40 characters; its length is at most 40. *)
Theorem find_caption_sanitized (page : Page) (bbox : BBox) (c : string) :
  find_caption page bbox = Some c ->
  exists line body,
    first_match page bbox = Some line
    /\ caption_body line = Some body
    /\ c = take 40 (replace_runs not_word_or_hyphen "_" (strip body))
    /\ String.length c <= 40.
Proof.
  rewrite find_caption_first_match.
  destruct (first_match page bbox) as [line|] eqn:Hfirst; [|discriminate].
  unfold caption_of_line.
  destruct (match_caption line) as [m|] eqn:Hm; [|discriminate].
  intros Hc. apply caption_of_match_some in Hc as [Hc _].
  destruct (match_caption_group2 line m Hm) as (body & Hg & Hbody).
  rewrite Hg in Hc. cbn [or_empty] in Hc.
  exists line, body. repeat split; try assumption.
  rewrite Hc. apply take_length_le.
Qed.

Lemma find_caption_sanitized_witness :
  find_caption Examples.long_caption_page Examples.figure_box
  = Some "Revenue_costs_all_regions_fiscal_year_20"
  /\ exists line body,
      first_match Examples.long_caption_page Examples.figure_box = Some line
      /\ caption_body line = Some body
      /\ "Revenue_costs_all_regions_fiscal_year_20"
         = take 40 (replace_runs not_word_or_hyphen "_" (strip body))
      /\ String.length "Revenue_costs_all_regions_fiscal_year_20" <= 40.
Proof.
  split; [vm_compute; reflexivity|].
  apply (find_caption_sanitized Examples.long_caption_page Examples.figure_box).
  vm_compute; reflexivity.
Defined.



(** ** The loops of [extract_and_save_from_pdf] *)

Lemma append_assoc_str (a b c : string) : (a ++ b) ++ c = a ++ (b ++ c).
Proof. induction a as [|x a IH]; simpl; [reflexivity | now rewrite IH]. Qed.

Lemma append_empty_r (a : string) : a ++ "" = a.
Proof. induction a as [|x a IH]; simpl; [reflexivity | now rewrite IH]. Qed.

Lemma append_inv_head (a b c : string) : a ++ b = a ++ c -> b = c.
Proof. induction a as [|x a IH]; simpl; [auto | intros [= H]; auto]. Qed.

Lemma text_loop (pages : list Page) (acc : string) :
  fold_left (fun text page => text ++ or_empty (extract_text page)) pages acc
  = acc ++ join (map (fun page => or_empty (extract_text page)) pages).
Proof.
  revert acc; induction pages as [|page pages IH]; intros acc; simpl.
  - now rewrite append_empty_r.
  - now rewrite IH, append_assoc_str.
Qed.

Lemma enumerate_app {A : Type} (start : nat) (l1 l2 : list A) :
  enumerate start (l1 ++ l2)
  = (enumerate start l1 ++ enumerate (start + List.length l1) l2)%list.
Proof.
  revert start; induction l1 as [|x l1 IH]; intros start; simpl.
  - now rewrite Nat.add_0_r.
  - rewrite IH. do 3 f_equal. lia.
Qed.

Section Loops.
Variable stem : string.
Variable output_dir : string.

(** One table: the caption lookup on the full page finds nothing, the
    file is named by the counter and the counter advances. *)
Lemma table_step_eq (page_num : nat) (page : Page) (st : State) (table : Table) :
  table_step stem output_dir page_num page st table
  = {| saved := saved st
                ++ [table_file stem output_dir (table_count st, (page_num, table))];
       printed := printed st
                  ++ [SavedTable (fst (table_file stem output_dir
                                         (table_count st, (page_num, table))))];
       table_count := table_count st + 1;
       image_count := image_count st |}.
Proof.
  unfold table_step. fold (full_bbox page). now rewrite find_caption_full_bbox.
Qed.

(** One image: skipped with a printed line when the crop is refused,
    else written under its caption or the counter, which advances. *)
Lemma image_step_eq (page_num : nat) (page : Page) (st : State) (img : Image) :
  image_step stem output_dir page_num page st img
  = match within_bbox page (image_bbox img) with
    | inl e => print (ErrorCropping e) st
    | inr region =>
        {| saved := saved st
                    ++ [image_file stem output_dir
                          (image_count st, (page_num, page, img, region))];
           printed := printed st
                      ++ [SavedImage
                            (fst (image_file stem output_dir
                                    (image_count st, (page_num, page, img, region))))];
           table_count := table_count st;
           image_count := image_count st + 1 |}
    end.
Proof.
  unfold image_step. fold (image_bbox img).
  destruct (within_bbox page (image_bbox img)); reflexivity.
Qed.

(** The table loop of a page writes one file per table, named by the
    counter, and advances the table counter only. *)
Lemma table_loop (page_num : nat) (page : Page) (tables : list Table) (st : State) :
  let st' := fold_left (table_step stem output_dir page_num page) tables st in
  saved st'
  = (saved st
     ++ map (table_file stem output_dir)
            (enumerate (table_count st) (map (fun t => (page_num, t)) tables)))%list
  /\ table_count st' = table_count st + List.length tables
  /\ image_count st' = image_count st.
Proof.
  revert st; induction tables as [|table tables IH]; intros st; cbn zeta.
  - simpl. rewrite app_nil_r. repeat split; lia.
  - cbn [fold_left]. specialize (IH (table_step stem output_dir page_num page st table)).
    cbn zeta in IH. destruct IH as (Hs & Ht & Hi).
    rewrite Hs, Ht, Hi, table_step_eq.
    cbn [saved table_count image_count map enumerate List.length].
    rewrite <- app_assoc. cbn [app].
    replace (table_count st + 1) with (S (table_count st)) by lia.
    repeat split; lia.
Qed.

(** The image loop of a page writes one file per image that crops,
    and advances the image counter once per such image only. *)
Lemma image_loop (page_num : nat) (page : Page) (imgs : list Image) (st : State) :
  let st' := fold_left (image_step stem output_dir page_num page) imgs st in
  saved st'
  = (saved st
     ++ map (image_file stem output_dir)
            (enumerate (image_count st) (cropped page_num page imgs)))%list
  /\ image_count st' = image_count st + List.length (cropped page_num page imgs)
  /\ table_count st' = table_count st.
Proof.
  revert st; induction imgs as [|img imgs IH]; intros st; cbn zeta.
  - simpl. rewrite app_nil_r. repeat split; lia.
  - cbn [fold_left]. specialize (IH (image_step stem output_dir page_num page st img)).
    cbn zeta in IH. destruct IH as (Hs & Hi & Ht).
    rewrite Hs, Hi, Ht, image_step_eq. unfold cropped.
    cbn [flat_map]. fold (cropped page_num page imgs).
    destruct (within_bbox page (image_bbox img)) as [e|region].
    + cbn [saved table_count image_count print app List.length]. repeat split; lia.
    + cbn [saved table_count image_count map enumerate List.length app].
      rewrite <- app_assoc.
      replace (image_count st + 1) with (S (image_count st)) by lia.
      simpl. repeat split; lia.
Qed.
End Loops.

Section Files.
Variable stem : string.
Variable output_dir : string.

Lemma filter_table_files (l : list (nat * (nat * Table))) :
  filter is_csv (map (table_file stem output_dir) l) = map (table_file stem output_dir) l
  /\ filter is_png (map (table_file stem output_dir) l) = []
  /\ filter is_txt (map (table_file stem output_dir) l) = [].
Proof.
  induction l as [|[k [n t]] l (IH1 & IH2 & IH3)]; simpl; [auto|].
  now rewrite IH1, IH2, IH3.
Qed.

Lemma filter_image_files (l : list (nat * (nat * Page * Image * Region))) :
  filter is_png (map (image_file stem output_dir) l) = map (image_file stem output_dir) l
  /\ filter is_csv (map (image_file stem output_dir) l) = []
  /\ filter is_txt (map (image_file stem output_dir) l) = [].
Proof.
  induction l as [|[k [[[n page] img] region]] l (IH1 & IH2 & IH3)]; simpl; [auto|].
  now rewrite IH1, IH2, IH3.
Qed.
End Files.

Section Pages.
Variable self : PDFToTextConverter.
Variable stem : string.
Variable output_dir : string.

Lemma page_step_files (st : State) (page_num : nat) (page : Page) :
  let st' := page_step self stem output_dir st (page_num, page) in
  saved st'
  = (saved st ++ table_files self stem output_dir (table_count st) page_num [page]
     ++ image_files self stem output_dir (image_count st) page_num [page])%list
  /\ table_count st' = table_count st + tables_seen self page_num [page]
  /\ image_count st' = image_count st + images_seen self page_num [page].
Proof.
  cbn zeta. unfold page_step, table_files, image_files, tables_seen, images_seen,
    tables_from, cropped_from.
  cbn [enumerate flat_map fst snd]. rewrite !app_nil_r.
  destruct (convert_tables self), (convert_images self).
  - destruct (table_loop stem output_dir page_num page (extract_tables page) st)
      as (Hs & Ht & Hi). cbn zeta in Hs, Ht, Hi.
    destruct (image_loop stem output_dir page_num page (images page)
                (fold_left (table_step stem output_dir page_num page)
                           (extract_tables page) st))
      as (Hs' & Hi' & Ht'). cbn zeta in Hs', Hi', Ht'.
    rewrite Hs', Hi', Ht', Hs, Ht, Hi, length_map, <- app_assoc. auto.
  - destruct (table_loop stem output_dir page_num page (extract_tables page) st)
      as (Hs & Ht & Hi). cbn zeta in Hs, Ht, Hi.
    rewrite Hs, Ht, Hi, length_map, app_nil_r. auto.
  - destruct (image_loop stem output_dir page_num page (images page) st)
      as (Hs' & Hi' & Ht'). cbn zeta in Hs', Hi', Ht'.
    rewrite Hs', Hi', Ht'. cbn [app]. auto.
  - rewrite app_nil_r. auto.
Qed.

Lemma table_files_cons (k start : nat) (page : Page) (pages : list Page) :
  table_files self stem output_dir k start (page :: pages)
  = (table_files self stem output_dir k start [page]
     ++ table_files self stem output_dir
          (k + tables_seen self start [page]) (S start) pages)%list.
Proof.
  unfold table_files, tables_seen, tables_from.
  destruct (convert_tables self); [|reflexivity].
  cbn [enumerate flat_map]. rewrite app_nil_r, enumerate_app, map_app. reflexivity.
Qed.

Lemma image_files_cons (k start : nat) (page : Page) (pages : list Page) :
  image_files self stem output_dir k start (page :: pages)
  = (image_files self stem output_dir k start [page]
     ++ image_files self stem output_dir
          (k + images_seen self start [page]) (S start) pages)%list.
Proof.
  unfold image_files, images_seen, cropped_from.
  destruct (convert_images self); [|reflexivity].
  cbn [enumerate flat_map]. rewrite app_nil_r, enumerate_app, map_app. reflexivity.
Qed.

Lemma tables_seen_cons (start : nat) (page : Page) (pages : list Page) :
  tables_seen self start (page :: pages)
  = tables_seen self start [page] + tables_seen self (S start) pages.
Proof.
  unfold tables_seen, tables_from. destruct (convert_tables self); [|reflexivity].
  cbn [enumerate flat_map]. now rewrite app_nil_r, length_app.
Qed.

Lemma images_seen_cons (start : nat) (page : Page) (pages : list Page) :
  images_seen self start (page :: pages)
  = images_seen self start [page] + images_seen self (S start) pages.
Proof.
  unfold images_seen, cropped_from. destruct (convert_images self); [|reflexivity].
  cbn [enumerate flat_map]. now rewrite app_nil_r, length_app.
Qed.

Lemma filter_table_files_of (k start : nat) (pages : list Page) :
  filter is_csv (table_files self stem output_dir k start pages)
  = table_files self stem output_dir k start pages
  /\ filter is_png (table_files self stem output_dir k start pages) = []
  /\ filter is_txt (table_files self stem output_dir k start pages) = [].
Proof.
  unfold table_files. destruct (convert_tables self); [|auto].
  apply filter_table_files.
Qed.

Lemma filter_image_files_of (k start : nat) (pages : list Page) :
  filter is_png (image_files self stem output_dir k start pages)
  = image_files self stem output_dir k start pages
  /\ filter is_csv (image_files self stem output_dir k start pages) = []
  /\ filter is_txt (image_files self stem output_dir k start pages) = [].
Proof.
  unfold image_files. destruct (convert_images self); [|auto].
  apply filter_image_files.
Qed.

(** The loop over the pages: what it appends to the files written is,
    kind by kind, the tables and the cropped images of the pages in
    document order, numbered on from the two counters. *)
Lemma pages_loop (pages : list Page) (start : nat) (st : State) :
  let st' := fold_left (page_step self stem output_dir) (enumerate start pages) st in
  exists new,
    saved st' = (saved st ++ new)%list
    /\ filter is_csv new = table_files self stem output_dir (table_count st) start pages
    /\ filter is_png new = image_files self stem output_dir (image_count st) start pages
    /\ filter is_txt new = []
    /\ table_count st' = table_count st + tables_seen self start pages
    /\ image_count st' = image_count st + images_seen self start pages.
Proof.
  revert start st; induction pages as [|page pages IH]; intros start st; cbn zeta.
  - exists []. cbn [enumerate fold_left]. rewrite app_nil_r.
    unfold table_files, image_files, tables_seen, images_seen, tables_from, cropped_from.
    cbn [enumerate flat_map List.length map filter].
    destruct (convert_tables self), (convert_images self); repeat split; lia.
  - cbn [enumerate fold_left].
    destruct (page_step_files st start page) as (Hs & Ht & Hi). cbn zeta in Hs, Ht, Hi.
    destruct (IH (S start) (page_step self stem output_dir st (start, page)))
      as (new & Hs' & Hcsv & Hpng & Htxt & Ht' & Hi'). cbn zeta in Hs', Ht', Hi'.
    exists (table_files self stem output_dir (table_count st) start [page]
            ++ image_files self stem output_dir (image_count st) start [page] ++ new)%list.
    destruct (filter_table_files_of (table_count st) start [page]) as (Tc & Tp & Tt).
    destruct (filter_image_files_of (image_count st) start [page]) as (Ip & Ic & It).
    rewrite Hs', Hs, Ht', Hi', !filter_app, Hcsv, Hpng, Htxt.
    rewrite Tc, Tp, Tt, Ip, Ic, It, Ht, Hi.
    rewrite (table_files_cons (table_count st) start page pages),
      (image_files_cons (image_count st) start page pages),
      (tables_seen_cons start page pages), (images_seen_cons start page pages).
    rewrite <- !app_assoc. cbn [app]. repeat split; lia.
Qed.
End Pages.

(** ** The files of a document *)

(** What one call writes: the text file first, then files that are,
    kind by kind, the tables and the cropped images of the document in
    order, numbered from 1. *)
Lemma extract_files (self : PDFToTextConverter) (stem output_dir : string)
      (pages : list Page) :
  exists new,
    saved (extract_and_save_from_pdf self stem output_dir pages)
    = ({| parent := output_dir; name := stem ++ ".txt" |},
       TextFile (join (map (fun page => or_empty (extract_text page)) pages))) :: new
    /\ filter is_csv new = table_files self stem output_dir 1 1 pages
    /\ filter is_png new = image_files self stem output_dir 1 1 pages
    /\ filter is_txt new = [].
Proof.
  unfold extract_and_save_from_pdf.
  match goal with
  | |- context [fold_left (page_step _ _ _) _ ?st0] =>
      destruct (pages_loop self stem output_dir pages 1 st0)
        as (new & Hs & Hcsv & Hpng & Htxt & _ & _)
  end.
  cbn zeta in Hs. exists new. rewrite Hs. rewrite text_loop.
  cbn [saved print save_text write app append].
  repeat split; assumption.
Qed.

(** C6: the text written to [<stem>.txt] is the texts of the pages put
    end to end in page order with nothing between them, a page without
    text counting for the empty string; it is the first file written and
    the only text file. *)
Theorem text_file_concatenates_pages
        (self : PDFToTextConverter) (stem output_dir : string) (pages : list Page) :
  exists rest,
    saved (extract_and_save_from_pdf self stem output_dir pages)
    = ({| parent := output_dir; name := stem ++ ".txt" |},
       TextFile (join (map (fun page => match extract_text page with
                                        | Some text => text
                                        | None => ""
                                        end) pages))) :: rest
    /\ filter is_txt rest = [].
Proof.
  destruct (extract_files self stem output_dir pages) as (new & Hs & _ & _ & Htxt).
  exists new. split; [exact Hs | exact Htxt].
Qed.

(** C8: the [k]-th table of the document, counted from 1 over all the
    pages, is written as [<stem>_table_<k>_p<page>.csv], whatever the
    images are; the [k]-th image that crops, counted from 1 over all the
    pages, is written under its caption or else as
    [<stem>_figure_<k>_p<page>.png], whatever the tables are; an image
    whose crop is refused is not counted. *)
Theorem counters_number_artifacts
        (self : PDFToTextConverter) (stem output_dir : string) (pages : list Page) :
  filter is_csv (saved (extract_and_save_from_pdf self stem output_dir pages))
  = (if convert_tables self
     then map (table_file stem output_dir) (enumerate 1 (tables_from 1 pages))
     else [])
  /\ filter is_png (saved (extract_and_save_from_pdf self stem output_dir pages))
     = (if convert_images self
        then map (image_file stem output_dir) (enumerate 1 (cropped_from 1 pages))
        else [])
  /\ (forall k page_num table,
        name (fst (table_file stem output_dir (k, (page_num, table))))
        = stem ++ "_" ++ ("table_" ++ str k) ++ "_p" ++ str page_num ++ ".csv")
  /\ (forall k page_num page img region,
        find_caption page (image_bbox img) = None ->
        name (fst (image_file stem output_dir (k, (page_num, page, img, region))))
        = stem ++ "_" ++ ("figure_" ++ str k) ++ "_p" ++ str page_num ++ ".png").
Proof.
  destruct (extract_files self stem output_dir pages) as (new & Hs & Hcsv & Hpng & _).
  rewrite Hs. cbn [filter is_csv is_png snd]. rewrite Hcsv, Hpng.
  repeat split.
  intros k page_num page img region Hnone. cbn [image_file fst name].
  now rewrite Hnone.
Qed.

Lemma table_file_fallback (stem output_dir : string) (l : list (nat * (nat * Table))) :
  Forall (fun f : Path * Content =>
            exists k page_num,
              name (fst f) = artifact_name stem ("table_" ++ str k) page_num ".csv")
         (map (table_file stem output_dir) l).
Proof.
  induction l as [|[k [page_num table]] l IH]; simpl; constructor; [|exact IH].
  now exists k, page_num.
Qed.

(** C10: anchored at the full bounding box of the page, both bands have
    zero area and are refused, so [find_caption] returns [None]; hence
    every table file of a document is named by the counter. *)
Theorem full_page_lookup_finds_nothing
        (self : PDFToTextConverter) (stem output_dir : string) (pages : list Page) :
  (forall page : Page,
      within_bbox page (above_area (full_bbox page))
      = inl (ZeroArea (above_area (full_bbox page)))
      /\ within_bbox page (below_area page (full_bbox page))
         = inl (ZeroArea (below_area page (full_bbox page)))
      /\ find_caption page (full_bbox page) = None)
  /\ Forall (fun f : Path * Content =>
               exists k page_num,
                 name (fst f) = artifact_name stem ("table_" ++ str k) page_num ".csv")
            (filter is_csv (saved (extract_and_save_from_pdf self stem output_dir pages))).
Proof.
  split.
  - intros page. unfold within_bbox.
    rewrite full_bbox_above_zero, full_bbox_below_zero. cbn [Z.eqb].
    repeat split. apply find_caption_full_bbox.
  - destruct (extract_files self stem output_dir pages) as (new & Hs & Hcsv & _ & _).
    rewrite Hs. cbn [filter is_csv snd]. rewrite Hcsv. unfold table_files.
    destruct (convert_tables self); [apply table_file_fallback | constructor].
Qed.

(** C2: on the page with the line "Table 1: Revenue by Quarter" above a
    3 x 4 grid, table extraction enabled, the text file holds the page
    text and the table is written with its 3 rows of 4 fields, but under
    the name [report_table_1_p1.csv]: no file is named after the
    caption.  The lookup anchored at the box of the grid would find the
    caption; anchored at the full page, as the table loop does, it finds
    nothing. *)
Theorem revenue_scenario_files :
  saved (extract_and_save_from_pdf Examples.tables_only "report" "out"
                                   [Examples.revenue_page])
  = [ ({| parent := "out"; name := "report.txt" |},
       TextFile (or_empty (extract_text Examples.revenue_page)));
      ({| parent := "out"; name := "report_table_1_p1.csv" |},
       CsvFile Examples.grid_3x4) ]
  /\ map (@List.length (option string)) Examples.grid_3x4 = [4; 4; 4]
  /\ ~ In {| parent := "out"; name := "report_Revenue_by_Quarter_p1.csv" |}
        (filenames (extract_and_save_from_pdf Examples.tables_only "report" "out"
                                              [Examples.revenue_page]))
  /\ find_caption Examples.revenue_page Examples.grid_box = Some "Revenue_by_Quarter"
  /\ find_caption Examples.revenue_page (full_bbox Examples.revenue_page) = None.
Proof.
  split; [vm_compute; reflexivity|]. split; [reflexivity|].
  split; [|split; vm_compute; reflexivity].
  vm_compute. intros [H|[H|[]]]; discriminate H.
Qed.

(** ** Names *)

Lemma string_of_uint_digits (d : Decimal.uint) :
  all_digits (NilEmpty.string_of_uint d) = true.
Proof. induction d; simpl; auto. Qed.

Lemma str_digits (n : nat) : all_digits (str n) = true.
Proof. apply string_of_uint_digits. Qed.

Lemma str_inj (n m : nat) : str n = str m -> n = m.
Proof.
  unfold str. intros H. apply DecimalNat.Unsigned.to_uint_inj.
  apply (f_equal NilEmpty.uint_of_string) in H.
  rewrite !NilEmpty.usu in H. now injection H.
Qed.

(** A run of digits followed by an underscore is read in one way only. *)
Lemma digits_then_underscore (d1 d2 r1 r2 : string) :
  all_digits d1 = true -> all_digits d2 = true ->
  d1 ++ String "_" r1 = d2 ++ String "_" r2 -> d1 = d2.
Proof.
  revert d2; induction d1 as [|a d1 IH]; intros [|b d2]; simpl; intros H1 H2 E.
  - reflexivity.
  - injection E as E _. subst b. discriminate.
  - injection E as E _. subst a. discriminate.
  - apply andb_prop in H1 as [_ H1]. apply andb_prop in H2 as [_ H2].
    injection E as -> E. f_equal. now apply (IH d2).
Qed.

Lemma counter_name_inj (stem prefix : string) (k k' n n' : nat) (ext : string) :
  artifact_name stem (prefix ++ str k) n ext = artifact_name stem (prefix ++ str k') n' ext ->
  k = k'.
Proof.
  unfold artifact_name. intros E.
  apply append_inv_head in E. cbn [append] in E. injection E as E.
  rewrite !append_assoc_str in E. apply append_inv_head in E.
  apply str_inj. eapply digits_then_underscore; [apply str_digits .. | exact E].
Qed.

Lemma table_not_figure (stem : string) (k k' n n' : nat) :
  artifact_name stem ("table_" ++ str k) n ".csv"
  <> artifact_name stem ("figure_" ++ str k') n' ".png".
Proof.
  unfold artifact_name. intros E. apply append_inv_head in E. discriminate E.
Qed.

Lemma text_not_artifact (stem caption : string) (n : nat) (ext : string) :
  stem ++ ".txt" <> artifact_name stem caption n ext.
Proof.
  unfold artifact_name. intros E. apply append_inv_head in E. discriminate E.
Qed.

Lemma enumerate_bounds {A : Type} (start : nat) (l : list A) (k : nat) (x : A) :
  In (k, x) (enumerate start l) -> start <= k.
Proof.
  revert start; induction l as [|y l IH]; intros start; simpl; [tauto|].
  intros [[= <- _]|H]; [lia|]. apply IH in H. lia.
Qed.

Lemma enumerate_In {A : Type} (start : nat) (l : list A) (k : nat) (x : A) :
  In (k, x) (enumerate start l) -> In x l.
Proof.
  revert start; induction l as [|y l IH]; intros start; simpl; [tauto|].
  intros [[= _ <-]|H]; [now left | right; eauto].
Qed.

(** Files named by distinct counters have distinct names. *)
Lemma counter_files_NoDup {A : Type} (file : nat * A -> Path * Content)
      (start : nat) (l : list A) :
  (forall k x k' x', In x l -> In x' l ->
                     fst (file (k, x)) = fst (file (k', x')) -> k = k') ->
  NoDup (map fst (map file (enumerate start l))).
Proof.
  revert start; induction l as [|x l IH]; intros start Hinj; simpl.
  - constructor.
  - constructor.
    + rewrite map_map. intros Hin. apply in_map_iff in Hin as ([k' x'] & E & Hin).
      apply Hinj in E; [| right; eapply enumerate_In; exact Hin | now left].
      subst k'. apply enumerate_bounds in Hin. lia.
    + apply IH. intros k y k' y' Hy Hy'. apply Hinj; now right.
Qed.

Lemma kinds_NoDup (l : list (Path * Content)) :
  filter is_txt l = [] ->
  NoDup (map fst (filter is_csv l)) ->
  NoDup (map fst (filter is_png l)) ->
  (forall a b, In a (filter is_csv l) -> In b (filter is_png l) -> fst a <> fst b) ->
  NoDup (map fst l).
Proof.
  induction l as [|[p c] l IH]; intros Htxt Hcsv Hpng Hdis; [constructor|].
  assert (Hsplit : forall y, In y l -> In y (filter is_csv l) \/ In y (filter is_png l)).
  { intros [q d] Hy. destruct d.
    - assert (Hin : In (q, TextFile text) (filter is_txt ((p, c) :: l))).
      { apply filter_In. split; [now right | reflexivity]. }
      rewrite Htxt in Hin. destruct Hin.
    - left. apply filter_In. now split.
    - right. apply filter_In. now split. }
  destruct c.
  - discriminate Htxt.
  - cbn [filter is_csv is_png is_txt snd map fst] in Htxt, Hcsv, Hpng, Hdis.
    apply NoDup_cons_iff in Hcsv as [Hnew Hcsv].
    cbn [map fst]. constructor.
    + intros Hin. apply in_map_iff in Hin as (y & E & Hy).
      destruct (Hsplit y Hy) as [Hy'|Hy'].
      * apply Hnew. rewrite <- E. now apply in_map.
      * apply (Hdis (p, CsvFile rows) y); [now left | exact Hy' | now rewrite E].
    + apply IH; auto. intros a b Ha Hb. apply Hdis; [now right | exact Hb].
  - cbn [filter is_csv is_png is_txt snd map fst] in Htxt, Hcsv, Hpng, Hdis.
    apply NoDup_cons_iff in Hpng as [Hnew Hpng].
    cbn [map fst]. constructor.
    + intros Hin. apply in_map_iff in Hin as (y & E & Hy).
      destruct (Hsplit y Hy) as [Hy'|Hy'].
      * apply (Hdis y (p, PngFile image)); [exact Hy' | now left | exact E].
      * apply Hnew. rewrite <- E. now apply in_map.
    + apply IH; auto. intros a b Ha Hb. apply Hdis; [exact Ha | now right].
Qed.

Lemma cropped_In (page_num : nat) (page : Page) (imgs : list Image)
      (n : nat) (pg : Page) (img : Image) (region : Region) :
  In (n, pg, img, region) (cropped page_num page imgs) -> pg = page /\ In img imgs.
Proof.
  unfold cropped. intros H. apply in_flat_map in H as (i & Hi & H).
  destruct (within_bbox page (image_bbox i)); [destruct H|].
  destruct H as [[= <- <- <- <-]|[]]. now split.
Qed.

Lemma cropped_from_In (start : nat) (pages : list Page)
      (n : nat) (pg : Page) (img : Image) (region : Region) :
  In (n, pg, img, region) (cropped_from start pages) ->
  In pg pages /\ In img (images pg).
Proof.
  unfold cropped_from. intros H. apply in_flat_map in H as ([m page] & Hp & H).
  apply cropped_In in H as [-> H]. split; [|exact H].
  eapply enumerate_In; exact Hp.
Qed.

(** ** Uniqueness of the file names *)

(** When no image of the document has a caption, every name carries its
    counter and every file written for the document has a name of its
    own. *)
Lemma filenames_unique_without_captions
        (self : PDFToTextConverter) (stem output_dir : string) (pages : list Page) :
  (forall page img,
      In page pages -> In img (images page) ->
      find_caption page (image_bbox img) = None) ->
  NoDup (filenames (extract_and_save_from_pdf self stem output_dir pages)).
Proof.
  intros Hnone. unfold filenames.
  destruct (extract_files self stem output_dir pages) as (new & Hs & Hcsv & Hpng & Htxt).
  rewrite Hs. cbn [map fst].
  assert (Htables : forall f, In f (filter is_csv new) ->
            exists k n, name (fst f) = artifact_name stem ("table_" ++ str k) n ".csv").
  { rewrite Hcsv. unfold table_files. intros f Hf.
    destruct (convert_tables self); [|destruct Hf].
    apply in_map_iff in Hf as ([k [n t]] & <- & _). now exists k, n. }
  assert (Himages : forall f, In f (filter is_png new) ->
            exists k n, name (fst f) = artifact_name stem ("figure_" ++ str k) n ".png").
  { rewrite Hpng. unfold image_files. intros f Hf.
    destruct (convert_images self); [|destruct Hf].
    apply in_map_iff in Hf as ([k [[[n page] img] region]] & <- & Hin).
    apply enumerate_In, cropped_from_In in Hin as [Hp Hi].
    exists k, n. cbn [image_file fst name]. now rewrite (Hnone page img Hp Hi). }
  assert (Hkinds : forall f, In f new ->
            In f (filter is_csv new) \/ In f (filter is_png new)).
  { intros [q d] Hf. destruct d.
    - assert (Hin : In (q, TextFile text) (filter is_txt new))
        by (apply filter_In; now split).
      rewrite Htxt in Hin. destruct Hin.
    - left. apply filter_In. now split.
    - right. apply filter_In. now split. }
  constructor.
  - intros Hin. apply in_map_iff in Hin as (f & E & Hf).
    apply (f_equal name) in E. cbn [name] in E.
    destruct (Hkinds f Hf) as [H|H];
      [apply Htables in H | apply Himages in H];
      destruct H as (k & n & Hname); rewrite Hname in E;
      symmetry in E; exact (text_not_artifact _ _ _ _ E).
  - apply kinds_NoDup; [exact Htxt | | |].
    + rewrite Hcsv. unfold table_files.
      destruct (convert_tables self); [|constructor].
      apply counter_files_NoDup.
      intros k [n t] k' [n' t'] _ _ E. apply (f_equal name) in E.
      exact (counter_name_inj _ _ _ _ _ _ _ E).
    + rewrite Hpng. unfold image_files.
      destruct (convert_images self); [|constructor].
      apply counter_files_NoDup.
      intros k [[[n page] img] region] k' [[[n' page'] img'] region'] Hx Hx' E.
      apply cropped_from_In in Hx as [Hp Hi], Hx' as [Hp' Hi'].
      apply (f_equal name) in E. cbn [image_file fst name] in E.
      rewrite (Hnone page img Hp Hi), (Hnone page' img' Hp' Hi') in E.
      exact (counter_name_inj _ _ _ _ _ _ _ E).
    + intros a b Ha Hb E. apply Htables in Ha as (k & n & Ha).
      apply Himages in Hb as (k' & n' & Hb).
      apply (f_equal name) in E. rewrite Ha, Hb in E.
      exact (table_not_figure _ _ _ _ _ E).
Qed.

(** C1 as stated fails: two images of one page whose captions have the
    same body are written under the same name, and the second file
    replaces the first. *)
Lemma filenames_collide_on_equal_captions :
  filenames (extract_and_save_from_pdf Examples.images_only "report" "out"
               [Examples.same_caption_page])
  = [ {| parent := "out"; name := "report.txt" |};
      {| parent := "out"; name := "report_Sales_p1.png" |};
      {| parent := "out"; name := "report_Sales_p1.png" |} ]
  /\ ~ NoDup (filenames (extract_and_save_from_pdf Examples.images_only "report" "out"
                           [Examples.same_caption_page])).
Proof.
  assert (E : filenames (extract_and_save_from_pdf Examples.images_only "report" "out"
                           [Examples.same_caption_page])
              = [ {| parent := "out"; name := "report.txt" |};
                  {| parent := "out"; name := "report_Sales_p1.png" |};
                  {| parent := "out"; name := "report_Sales_p1.png" |} ])
    by (vm_compute; reflexivity).
  split; [exact E|]. rewrite E. intros H.
  apply NoDup_cons_iff in H as [_ H]. apply NoDup_cons_iff in H as [H _].
  apply H. now left.
Qed.

(** ** An image whose crop is refused *)

Section Skip.
Variable self : PDFToTextConverter.
Variable stem : string.
Variable output_dir : string.
Variable e : Printed.

Lemma skipped_print (st : State) : skipped e (print e st) st.
Proof.
  unfold skipped. cbn [print saved table_count image_count printed].
  repeat split. exists (printed st), []. now rewrite app_nil_r.
Qed.

Lemma table_step_skipped (page_num : nat) (page : Page) (st st' : State) (table : Table) :
  skipped e st st' ->
  skipped e (table_step stem output_dir page_num page st table)
            (table_step stem output_dir page_num page st' table).
Proof.
  intros (Hs & Ht & Hi & before & after & Hp & Hp').
  rewrite !table_step_eq. unfold skipped.
  cbn [saved table_count image_count printed]. rewrite Hs, Ht, Hi.
  repeat split. exists before, (after ++ [SavedTable
    (fst (table_file stem output_dir (table_count st', (page_num, table))))])%list.
  rewrite Hp, Hp', <- !app_assoc. split; reflexivity.
Qed.

Lemma image_step_skipped (page_num : nat) (page : Page) (st st' : State) (img : Image) :
  skipped e st st' ->
  skipped e (image_step stem output_dir page_num page st img)
            (image_step stem output_dir page_num page st' img).
Proof.
  intros (Hs & Ht & Hi & before & after & Hp & Hp').
  rewrite !image_step_eq. unfold skipped.
  destruct (within_bbox page (image_bbox img)) as [err|region];
    cbn [print saved table_count image_count printed]; rewrite Hs, Ht, Hi;
    repeat split.
  - exists before, (after ++ [ErrorCropping err])%list.
    rewrite Hp, Hp', <- !app_assoc. split; reflexivity.
  - exists before, (after ++ [SavedImage
      (fst (image_file stem output_dir
              (image_count st', (page_num, page, img, region))))])%list.
    rewrite Hp, Hp', <- !app_assoc. split; reflexivity.
Qed.

Lemma fold_skipped {A : Type} (step : State -> A -> State) (l : list A) :
  (forall st st' x, skipped e st st' -> skipped e (step st x) (step st' x)) ->
  forall st st', skipped e st st' ->
                 skipped e (fold_left step l st) (fold_left step l st').
Proof.
  intros Hstep. induction l as [|x l IH]; intros st st' H; cbn [fold_left]; auto.
Qed.

Lemma page_step_skipped (st st' : State) (numbered : nat * Page) :
  skipped e st st' ->
  skipped e (page_step self stem output_dir st numbered)
            (page_step self stem output_dir st' numbered).
Proof.
  destruct numbered as [page_num page]. intros H. unfold page_step.
  assert (Ht : skipped e
                 (if convert_tables self
                  then fold_left (table_step stem output_dir page_num page)
                                 (extract_tables page) st
                  else st)
                 (if convert_tables self
                  then fold_left (table_step stem output_dir page_num page)
                                 (extract_tables page) st'
                  else st')).
  { destruct (convert_tables self); [|exact H].
    apply fold_skipped; [|exact H]. intros; now apply table_step_skipped. }
  destruct (convert_images self); [|exact Ht].
  apply fold_skipped; [|exact Ht]. intros; now apply image_step_skipped.
Qed.
End Skip.

Lemma page_step_with_images
      (self : PDFToTextConverter) (stem output_dir : string)
      (st : State) (page_num : nat) (page : Page) (imgs : list Image) :
  page_step self stem output_dir st (page_num, with_images page imgs)
  = let st :=
      if convert_tables self
      then fold_left (table_step stem output_dir page_num page) (extract_tables page) st
      else st in
    if convert_images self
    then fold_left (image_step stem output_dir page_num page) imgs st
    else st.
Proof. reflexivity. Qed.

Lemma page_step_plain
      (self : PDFToTextConverter) (stem output_dir : string)
      (st : State) (page_num : nat) (page : Page) :
  page_step self stem output_dir st (page_num, page)
  = let st :=
      if convert_tables self
      then fold_left (table_step stem output_dir page_num page) (extract_tables page) st
      else st in
    if convert_images self
    then fold_left (image_step stem output_dir page_num page) (images page) st
    else st.
Proof. reflexivity. Qed.

Lemma zero_area_refused (page : Page) (b : BBox) :
  bbox_area b = 0%Z -> within_bbox page b = inl (ZeroArea b).
Proof. intros H. unfold within_bbox. now rewrite H. Qed.

(** C9: an image whose bounding box has zero area is skipped, with one
    line printed: the files written for the document and the counters
    are those of the same document without that image, and the lines
    printed are the same but for the error line. *)
Theorem zero_area_image_skipped
        (self : PDFToTextConverter) (stem output_dir : string)
        (pages1 pages2 : list Page) (page : Page)
        (imgs1 imgs2 : list Image) (img : Image) :
  images page = (imgs1 ++ img :: imgs2)%list ->
  bbox_area (image_bbox img) = 0%Z ->
  let st := extract_and_save_from_pdf self stem output_dir
              (pages1 ++ page :: pages2) in
  let st' := extract_and_save_from_pdf self stem output_dir
               (pages1 ++ with_images page (imgs1 ++ imgs2) :: pages2) in
  saved st = saved st'
  /\ table_count st = table_count st'
  /\ image_count st = image_count st'
  /\ if convert_images self
     then exists before after,
         printed st
         = (before ++ ErrorCropping (ZeroArea (image_bbox img)) :: after)%list
         /\ printed st' = (before ++ after)%list
     else printed st = printed st'.
Proof.
  intros Himgs Hzero. cbn zeta. unfold extract_and_save_from_pdf.
  rewrite !text_loop, !map_app. cbn [map with_images extract_text].
  rewrite !enumerate_app, !fold_left_app. cbn [enumerate fold_left].
  set (st1 := fold_left (page_step self stem output_dir) (enumerate 1 pages1) _).
  rewrite page_step_with_images.
  rewrite (page_step_plain self stem output_dir st1 (1 + List.length pages1) page).
  cbn zeta.
  set (st2 := if convert_tables self
              then fold_left (table_step stem output_dir (1 + List.length pages1) page)
                             (extract_tables page) st1
              else st1).
  destruct (convert_images self) eqn:Hci.
  - match goal with
    | |- saved ?a = saved ?b /\ _ =>
        change (skipped (ErrorCropping (ZeroArea (image_bbox img))) a b)
    end.
    rewrite Himgs, !fold_left_app. cbn [fold_left].
    set (st3 := fold_left (image_step stem output_dir (1 + List.length pages1) page)
                          imgs1 st2).
    rewrite (image_step_eq stem output_dir _ page st3 img).
    rewrite (zero_area_refused page (image_bbox img) Hzero).
    apply (fold_skipped _ (page_step self stem output_dir)).
    + intros; now apply page_step_skipped.
    + apply fold_skipped; [|apply skipped_print].
      intros; now apply image_step_skipped.
  - repeat split.
Qed.

Lemma zero_area_image_skipped_witness :
  images Examples.plain_page = ([] ++ Examples.flat_figure :: [Examples.figure])%list
  /\ bbox_area (image_bbox Examples.flat_figure) = 0%Z
  /\ filenames (extract_and_save_from_pdf Examples.both "report" "out"
                  ([] ++ Examples.plain_page :: [Examples.plain_page]))
     = filenames (extract_and_save_from_pdf Examples.both "report" "out"
                    ([] ++ with_images Examples.plain_page ([] ++ [Examples.figure])
                        :: [Examples.plain_page])).
Proof.
  assert (H1 : images Examples.plain_page
               = ([] ++ Examples.flat_figure :: [Examples.figure])%list) by reflexivity.
  assert (H2 : bbox_area (image_bbox Examples.flat_figure) = 0%Z) by reflexivity.
  split; [exact H1|]. split; [exact H2|].
  unfold filenames.
  exact (f_equal (map fst)
           (proj1 (zero_area_image_skipped Examples.both "report" "out"
                     [] [Examples.plain_page] Examples.plain_page
                     [] [Examples.figure] Examples.flat_figure H1 H2))).
Defined.

(** * Further properties of the converter *)

(** ** [convert_pdf_to_text] *)

Lemma join_app (l1 l2 : list string) : join (l1 ++ l2) = join l1 ++ join l2.
Proof.
  unfold join. induction l1 as [|x l1 IH]; simpl; [reflexivity|].
  now rewrite IH, append_assoc_str.
Qed.

(** X1: [convert_pdf_to_text] returns the text that
    [extract_and_save_from_pdf] writes to [<stem>.txt]; the text of a
    document is the text of its first pages followed by the text of the
    rest, and pages without text add nothing. *)
Theorem convert_pdf_to_text_is_text_file
        (self : PDFToTextConverter) (stem output_dir : string)
        (pages1 pages2 : list Page) :
  hd_error (saved (extract_and_save_from_pdf self stem output_dir (pages1 ++ pages2)))
  = Some ({| parent := output_dir; name := stem ++ ".txt" |},
          TextFile (convert_pdf_to_text (pages1 ++ pages2)))
  /\ convert_pdf_to_text (pages1 ++ pages2)
     = convert_pdf_to_text pages1 ++ convert_pdf_to_text pages2
  /\ (Forall (fun page => extract_text page = None) pages2 ->
      convert_pdf_to_text (pages1 ++ pages2) = convert_pdf_to_text pages1).
Proof.
  destruct (extract_files self stem output_dir (pages1 ++ pages2)) as (new & Hs & _).
  unfold convert_pdf_to_text. rewrite Hs, !text_loop. cbn [hd_error append].
  split; [reflexivity|]. split.
  - now rewrite map_app, join_app.
  - intros Hnone. rewrite map_app, join_app.
    replace (join (map (fun page => or_empty (extract_text page)) pages2)) with "".
    + now rewrite append_empty_r.
    + clear Hs. induction Hnone as [|page pages2 Hp _ IH]; [reflexivity|].
      cbn [map]. unfold join in IH |- *. cbn [fold_right]. rewrite Hp. exact IH.
Qed.

(** ** The cleaned caption *)

Lemma all_chars_app (p : ascii -> bool) (a b : string) :
  all_chars p (a ++ b) = all_chars p a && all_chars p b.
Proof.
  induction a as [|x a IH]; simpl; [reflexivity|].
  now rewrite IH, andb_assoc.
Qed.

Lemma all_chars_take (p : ascii -> bool) (n : nat) (s : string) :
  all_chars p s = true -> all_chars p (take n s) = true.
Proof.
  revert s; induction n as [|n IH]; intros [|a s]; simpl; try reflexivity.
  intros H. apply andb_prop in H as [Ha Hs]. rewrite Ha. now apply IH.
Qed.

Section Squeeze.
Variable p : ascii -> bool.
Variable repl : string.
Hypothesis repl_outside : all_chars (fun a => negb (p a)) repl = true.

Lemma squeeze_outside (b : bool) (s : string) :
  all_chars (fun a => negb (p a)) (squeeze p repl b s) = true.
Proof.
  revert b; induction s as [|a s IH]; intros b; simpl; [reflexivity|].
  destruct (p a) eqn:Ha.
  - destruct b; [apply IH|]. now rewrite all_chars_app, repl_outside, IH.
  - simpl. now rewrite Ha, IH.
Qed.

Lemma squeeze_fixed (s : string) :
  all_chars (fun a => negb (p a)) s = true -> squeeze p repl false s = s.
Proof.
  induction s as [|a s IH]; simpl; [reflexivity|].
  intros H. apply andb_prop in H as [Ha Hs].
  apply negb_true_iff in Ha. rewrite Ha. now rewrite IH.
Qed.
End Squeeze.

Lemma squeeze_length (p : ascii -> bool) (b : bool) (s : string) :
  String.length (squeeze p "_" b s) <= String.length s.
Proof.
  revert b; induction s as [|a s IH]; intros b; simpl; [lia|].
  destruct (p a).
  - destruct b; [specialize (IH true); lia|]. simpl. specialize (IH true). lia.
  - simpl. specialize (IH false). lia.
Qed.

Lemma space_unsafe (a : ascii) : isspace a = true -> not_word_or_hyphen a = true.
Proof.
  destruct a as [[] [] [] [] [] [] [] []]; vm_compute; congruence.
Qed.

Lemma rstrip_fixed (s : string) :
  all_chars (fun a => negb (isspace a)) s = true -> rstrip s = s.
Proof.
  induction s as [|a s IH]; [reflexivity|].
  cbn [all_chars]. intros H. apply andb_prop in H as [Ha Hs].
  apply negb_true_iff in Ha. cbn [rstrip]. rewrite (IH Hs), Ha. reflexivity.
Qed.

Lemma lstrip_fixed (s : string) :
  all_chars (fun a => negb (isspace a)) s = true -> lstrip s = s.
Proof.
  destruct s as [|a s]; [reflexivity|].
  unfold lstrip. cbn [all_chars drop_while].
  intros H. apply andb_prop in H as [Ha _].
  apply negb_true_iff in Ha. now rewrite Ha.
Qed.

Lemma all_chars_weaken (p q : ascii -> bool) (s : string) :
  (forall a, p a = true -> q a = true) ->
  all_chars p s = true -> all_chars q s = true.
Proof.
  intros Hpq. induction s as [|a s IH]; simpl; [reflexivity|].
  intros H. apply andb_prop in H as [Ha Hs]. now rewrite (Hpq a Ha), IH.
Qed.

Lemma cleaned_outside (s : string) :
  all_chars (fun a => negb (not_word_or_hyphen a)) (re_sub unsafe_re "_" s) = true.
Proof.
  unfold unsafe_re. rewrite sub_scan_squeeze. now apply squeeze_outside.
Qed.

(** X2: a caption returned by [find_caption] is not empty, is made of
    word characters and hyphens only, and is left as it is by the
    cleaning: stripping it or substituting in it again changes nothing. *)
Theorem find_caption_safe (page : Page) (bbox : BBox) (c : string) :
  find_caption page bbox = Some c ->
  c <> EmptyString
  /\ all_chars safe_char c = true
  /\ strip c = c
  /\ re_sub unsafe_re "_" c = c.
Proof.
  rewrite find_caption_first_match.
  destruct (first_match page bbox) as [line|]; [|discriminate].
  unfold caption_of_line. destruct (match_caption line) as [m|]; [|discriminate].
  intros Hc. apply caption_of_match_some in Hc as [Hc Hne].
  assert (Hout : all_chars (fun a => negb (not_word_or_hyphen a)) c = true).
  { rewrite Hc. apply all_chars_take. rewrite replace_runs_squeeze.
    now apply squeeze_outside. }
  assert (Hnospace : all_chars (fun a => negb (isspace a)) c = true).
  { apply (all_chars_weaken (fun a => negb (not_word_or_hyphen a))); [|exact Hout].
    intros a Ha. destruct (isspace a) eqn:Hs; [|reflexivity].
    now rewrite (space_unsafe a Hs) in Ha. }
  split; [exact Hne|]. split; [|split].
  - apply (all_chars_weaken (fun a => negb (not_word_or_hyphen a))); [|exact Hout].
    intros a Ha. unfold not_word_or_hyphen in Ha.
    now apply negb_true_iff, negb_false_iff in Ha.
  - unfold strip. now rewrite (lstrip_fixed _ Hnospace), (rstrip_fixed _ Hnospace).
  - unfold unsafe_re. rewrite sub_scan_squeeze. now apply squeeze_fixed.
Qed.

Lemma find_caption_safe_witness :
  find_caption Examples.long_caption_page Examples.figure_box
  = Some "Revenue_costs_all_regions_fiscal_year_20"
  /\ all_chars safe_char "Revenue_costs_all_regions_fiscal_year_20" = true.
Proof.
  assert (H : find_caption Examples.long_caption_page Examples.figure_box
              = Some "Revenue_costs_all_regions_fiscal_year_20")
    by (vm_compute; reflexivity).
  exact (conj H (proj1 (proj2 (find_caption_safe _ _ _ H)))).
Defined.

(** X3: the substitution of [find_caption] on any string: the result
    holds word characters and hyphens only, is never longer than the
    string, and substituting again changes nothing. *)
Theorem cleaning_idempotent (s : string) :
  all_chars safe_char (re_sub unsafe_re "_" s) = true
  /\ String.length (re_sub unsafe_re "_" s) <= String.length s
  /\ re_sub unsafe_re "_" (re_sub unsafe_re "_" s) = re_sub unsafe_re "_" s.
Proof.
  pose proof (cleaned_outside s) as Hout. split; [|split].
  - apply (all_chars_weaken (fun a => negb (not_word_or_hyphen a))); [|exact Hout].
    intros a Ha. unfold not_word_or_hyphen in Ha.
    now apply negb_true_iff, negb_false_iff in Ha.
  - unfold unsafe_re. rewrite sub_scan_squeeze. apply squeeze_length.
  - unfold unsafe_re at 1. rewrite sub_scan_squeeze. now apply squeeze_fixed.
Qed.

(** ** The two search bands *)



Lemma find_caption_two_bands (page : Page) (bbox : BBox) :
  find_caption page bbox
  = match find matches (area_lines page (above_area bbox)) with
    | Some line => caption_of_line line
    | None =>
        match find matches (area_lines page (below_area page bbox)) with
        | Some line => caption_of_line line
        | None => None
        end
    end.
Proof.
  rewrite find_caption_first_match. unfold first_match, searched_lines.
  rewrite find_app_first.
  now destruct (find matches (area_lines page (above_area bbox))).
Qed.

(** X5: when the band above the box is refused or holds no matching
    line, [find_caption] returns the caption of the first matching line
    of the band below, and [None] when that band is refused or holds no
    matching line either. *)
Theorem find_caption_falls_back_below (page : Page) (bbox : BBox) :
  find matches (area_lines page (above_area bbox)) = None ->
  find_caption page bbox
  = match find matches (area_lines page (below_area page bbox)) with
    | Some line => caption_of_line line
    | None => None
    end.
Proof. intros Habove. now rewrite find_caption_two_bands, Habove. Qed.

Lemma find_caption_falls_back_below_witness :
  find matches (area_lines Examples.top_figure_page
                           (above_area (image_bbox Examples.top_figure))) = None
  /\ find_caption Examples.top_figure_page (image_bbox Examples.top_figure)
     = Some "Overview".
Proof.
  assert (H : find matches (area_lines Examples.top_figure_page
                              (above_area (image_bbox Examples.top_figure))) = None)
    by (vm_compute; reflexivity).
  split; [exact H|].
  rewrite (find_caption_falls_back_below _ _ H). vm_compute. reflexivity.
Defined.

(** X6: a box that starts at the top of the page has no band above, so
    only the band below is searched; a box that ends at the bottom of
    the page has no band below; a box that spans the whole height of the
    page never gets a caption, whatever its width. *)
Theorem find_caption_at_page_edges (page : Page) (x0 top x1 bottom : Z) :
  find_caption page (x0, 0, x1, bottom)%Z
  = match find matches (area_lines page (below_area page (x0, 0, x1, bottom)%Z)) with
    | Some line => caption_of_line line
    | None => None
    end
  /\ find_caption page (x0, top, x1, height page)
     = match find matches (area_lines page (above_area (x0, top, x1, height page))) with
       | Some line => caption_of_line line
       | None => None
       end
  /\ find_caption page (x0, 0, x1, height page)%Z = None.
Proof.
  assert (Habove : forall b, area_lines page (above_area (x0, 0, x1, b)%Z) = []).
  { intros b. unfold area_lines, within_bbox, above_area, bbox_area. cbn [Z.sub Z.opp Z.max].
    replace ((x1 - x0) * (0 - Z.max 0 (0 - 40)))%Z with 0%Z by lia. reflexivity. }
  assert (Hbelow : forall t, area_lines page (below_area page (x0, t, x1, height page)) = []).
  { intros t. unfold area_lines, within_bbox, below_area, bbox_area.
    rewrite Z.min_l by lia.
    replace ((x1 - x0) * (height page - height page))%Z with 0%Z by lia. reflexivity. }
  rewrite !find_caption_two_bands, !Habove, !Hbelow. cbn [find].
  repeat split.
Qed.

(** ** The candidate lines *)

Lemma all_chars_drop_while (p q : ascii -> bool) (s : string) :
  all_chars p s = true -> all_chars p (drop_while q s) = true.
Proof.
  induction s as [|a s IH]; [reflexivity|]. cbn [drop_while all_chars].
  intros H. destruct (q a); [|exact H].
  apply andb_prop in H as [_ H]. now apply IH.
Qed.

Lemma all_chars_rstrip (p : ascii -> bool) (s : string) :
  all_chars p s = true -> all_chars p (rstrip s) = true.
Proof.
  induction s as [|a s IH]; [reflexivity|]. cbn [rstrip all_chars].
  intros H. apply andb_prop in H as [Ha H].
  destruct (isspace a && is_empty (rstrip s)); [reflexivity|].
  cbn [all_chars]. now rewrite Ha, IH.
Qed.

Lemma split_lines_no_newline (s : string) :
  Forall (fun line => all_chars dot line = true) (split_lines s).
Proof.
  induction s as [|a s IH]; cbn [split_lines]; [now repeat constructor|].
  destruct (Ascii.eqb a newline) eqn:Ha; [now constructor|].
  destruct (split_lines s) as [|l ls].
  { constructor; [|constructor]. cbn [all_chars]. unfold dot. now rewrite Ha. }
  inversion IH as [|? ? Hl Hls]; subst. constructor; [|exact Hls].
  cbn [all_chars]. unfold dot at 1. now rewrite Ha, Hl.
Qed.

Lemma rstrip_idempotent (s : string) : rstrip (rstrip s) = rstrip s.
Proof.
  induction s as [|a s IH]; [reflexivity|]. cbn [rstrip].
  destruct (isspace a && is_empty (rstrip s)) eqn:E; [reflexivity|].
  cbn [rstrip]. now rewrite IH, E.
Qed.

Lemma lstrip_rstrip_lstrip (s : string) :
  lstrip (rstrip (lstrip s)) = rstrip (lstrip s).
Proof.
  unfold lstrip. induction s as [|a s IH]; [reflexivity|]. cbn [drop_while].
  destruct (isspace a) eqn:Ha; [exact IH|].
  cbn [rstrip]. rewrite Ha. cbn [andb drop_while]. now rewrite Ha.
Qed.

Lemma strip_idempotent (s : string) : strip (strip s) = strip s.
Proof.
  unfold strip. now rewrite lstrip_rstrip_lstrip, rstrip_idempotent.
Qed.

(** X7: every line [find_caption] tries against the pattern is not
    empty, has no whitespace at either end, and holds no newline. *)
Theorem candidate_lines_stripped (text : string) :
  Forall (fun line => line <> EmptyString
                      /\ strip line = line
                      /\ all_chars dot line = true)
         (candidate_lines text).
Proof.
  unfold candidate_lines. apply Forall_forall. intros line Hin.
  apply in_map_iff in Hin as (raw & <- & Hin).
  apply filter_In in Hin as [Hin Hne].
  split; [|split].
  - intros E. rewrite E in Hne. discriminate.
  - apply strip_idempotent.
  - pose proof (split_lines_no_newline text) as Hall.
    rewrite Forall_forall in Hall. specialize (Hall raw Hin).
    unfold strip, lstrip. now apply all_chars_rstrip, all_chars_drop_while.
Qed.

(** ** How many files, and what is printed *)

Lemma tables_from_length (start : nat) (pages : list Page) :
  List.length (tables_from start pages) = List.length (flat_map extract_tables pages).
Proof.
  unfold tables_from. revert start; induction pages as [|page pages IH]; intros start.
  - reflexivity.
  - cbn [enumerate flat_map fst snd]. now rewrite !length_app, length_map, IH.
Qed.

Lemma cropped_refused_length (page_num : nat) (page : Page) (imgs : list Image) :
  List.length (cropped page_num page imgs) + List.length (refused page imgs)
  = List.length imgs.
Proof.
  unfold cropped, refused. induction imgs as [|img imgs IH]; [reflexivity|].
  cbn [flat_map filter]. destruct (within_bbox page (image_bbox img));
    rewrite length_app; cbn [List.length]; lia.
Qed.

Lemma cropped_from_length (start : nat) (pages : list Page) :
  List.length (cropped_from start pages) + List.length (refused_from pages)
  = List.length (flat_map images pages).
Proof.
  unfold cropped_from, refused_from.
  revert start; induction pages as [|page pages IH]; intros start; [reflexivity|].
  cbn [enumerate flat_map fst snd]. rewrite !length_app.
  specialize (IH (S start)).
  pose proof (cropped_refused_length start page (images page)). lia.
Qed.

Lemma enumerate_length {A : Type} (start : nat) (l : list A) :
  List.length (enumerate start l) = List.length l.
Proof.
  revert start; induction l as [|x l IH]; intros start; simpl; [reflexivity|].
  now rewrite IH.
Qed.

Lemma length_by_kind (l : list (Path * Content)) :
  filter is_txt l = [] ->
  List.length l = List.length (filter is_csv l) + List.length (filter is_png l).
Proof.
  induction l as [|[p c] l IH]; [reflexivity|].
  destruct c; cbn [filter is_txt is_csv is_png snd]; intros H.
  - discriminate H.
  - cbn [List.length]. rewrite (IH H). lia.
  - cbn [List.length]. rewrite (IH H). lia.
Qed.

(** X8: one call makes one write for the text file, one write per table
    when tables are enabled, and one write per image that crops when
    images are enabled; at the end each counter is one more than the
    number of writes of its kind.  These are the calls of the save
    functions: two writes to one path leave one file. *)
Theorem extract_counts
        (self : PDFToTextConverter) (stem output_dir : string) (pages : list Page) :
  let st := extract_and_save_from_pdf self stem output_dir pages in
  let tables :=
    if convert_tables self then List.length (flat_map extract_tables pages) else 0 in
  let pictures :=
    if convert_images self
    then List.length (flat_map images pages) - List.length (refused_from pages)
    else 0 in
  List.length (saved st) = 1 + tables + pictures
  /\ table_count st = 1 + tables
  /\ image_count st = 1 + pictures.
Proof.
  cbn zeta. unfold extract_and_save_from_pdf.
  match goal with
  | |- context [fold_left (page_step _ _ _) _ ?st0] =>
      destruct (pages_loop self stem output_dir pages 1 st0)
        as (new & Hs & Hcsv & Hpng & Htxt & Ht & Hi)
  end.
  cbn zeta in Hs, Ht, Hi. rewrite Hs, Ht, Hi, length_app.
  cbn [saved table_count image_count print save_text write app List.length].
  rewrite (length_by_kind new Htxt), Hcsv, Hpng.
  unfold table_files, image_files, tables_seen, images_seen.
  pose proof (tables_from_length 1 pages) as Htl.
  pose proof (cropped_from_length 1 pages) as Hcl.
  destruct (convert_tables self), (convert_images self);
    rewrite ?length_map, ?enumerate_length, ?length_app; cbn [List.length];
    repeat split; lia.
Qed.

Section Reported.
Variable stem : string.
Variable output_dir : string.

Lemma table_step_reported (page_num : nat) (page : Page) (n : nat)
      (st : State) (table : Table) :
  reported n st -> reported n (table_step stem output_dir page_num page st table).
Proof.
  intros [Hr He]. rewrite table_step_eq. unfold reported.
  cbn [saved printed]. rewrite !filter_app, map_app, Hr, length_app, He.
  cbn [filter is_error negb map report table_file snd fst app List.length].
  split; [reflexivity | lia].
Qed.

Lemma image_loop_reported (page_num : nat) (page : Page) (imgs : list Image)
      (n : nat) (st : State) :
  reported n st ->
  reported (n + List.length (refused page imgs))
           (fold_left (image_step stem output_dir page_num page) imgs st).
Proof.
  revert n st; induction imgs as [|img imgs IH]; intros n st Hst.
  - cbn [fold_left refused filter List.length]. now rewrite Nat.add_0_r.
  - cbn [fold_left]. unfold refused. cbn [filter]. fold (refused page imgs).
    rewrite image_step_eq. destruct Hst as [Hr He].
    destruct (within_bbox page (image_bbox img)) as [e|region].
    + cbn [List.length]. replace (n + S (List.length (refused page imgs)))
        with (S n + List.length (refused page imgs)) by lia.
      apply IH. unfold reported. cbn [print saved printed].
      rewrite !filter_app, length_app, Hr, He.
      cbn [filter is_error negb app List.length]. rewrite app_nil_r.
      split; [reflexivity | lia].
    + apply IH. unfold reported. cbn [saved printed].
      rewrite !filter_app, map_app, Hr, length_app, He.
      cbn [filter is_error negb map report image_file snd fst app List.length].
      split; [reflexivity | lia].
Qed.

Lemma table_loop_reported (page_num : nat) (page : Page) (tables : list Table)
      (n : nat) (st : State) :
  reported n st ->
  reported n (fold_left (table_step stem output_dir page_num page) tables st).
Proof.
  revert st; induction tables as [|table tables IH]; intros st Hst; [exact Hst|].
  cbn [fold_left]. now apply IH, table_step_reported.
Qed.

Lemma pages_loop_reported (self : PDFToTextConverter) (pages : list Page)
      (start n : nat) (st : State) :
  reported n st ->
  reported (n + if convert_images self then List.length (refused_from pages) else 0)
           (fold_left (page_step self stem output_dir) (enumerate start pages) st).
Proof.
  revert start n st; induction pages as [|page pages IH]; intros start n st Hst.
  - cbn. destruct (convert_images self); now rewrite Nat.add_0_r.
  - cbn [enumerate fold_left]. unfold refused_from. cbn [flat_map].
    fold (refused_from pages). rewrite length_app.
    set (here := if convert_images self
                 then List.length (refused page (images page)) else 0).
    replace (n + (if convert_images self
                  then List.length (refused page (images page))
                       + List.length (refused_from pages)
                  else 0))
      with ((n + here)
            + (if convert_images self then List.length (refused_from pages) else 0))
      by (unfold here; destruct (convert_images self); lia).
    apply IH. rewrite page_step_plain. cbn zeta. unfold here.
    assert (Ht : reported n
                   (if convert_tables self
                    then fold_left (table_step stem output_dir start page)
                                   (extract_tables page) st
                    else st))
      by (destruct (convert_tables self); [now apply table_loop_reported | exact Hst]).
    destruct (convert_images self).
    + now apply image_loop_reported.
    + now rewrite Nat.add_0_r.
Qed.
End Reported.

(** X9: the lines printed by one call tell every file written, in the
    order of writing and with its path; besides them there is one error
    line per image that does not crop when images are enabled, and none
    otherwise: no image is dropped silently. *)
Theorem printed_reports_files
        (self : PDFToTextConverter) (stem output_dir : string) (pages : list Page) :
  let st := extract_and_save_from_pdf self stem output_dir pages in
  filter (fun l => negb (is_error l)) (printed st) = map report (saved st)
  /\ List.length (filter is_error (printed st))
     = (if convert_images self then List.length (refused_from pages) else 0).
Proof.
  cbn zeta. unfold extract_and_save_from_pdf.
  apply (pages_loop_reported stem output_dir self pages 1 0).
  unfold reported. cbn. split; reflexivity.
Qed.

(** ** Which names can meet *)

Lemma append_length (a b : string) :
  String.length (a ++ b) = String.length a + String.length b.
Proof. induction a as [|x a IH]; simpl; [reflexivity | now rewrite IH]. Qed.

Lemma append_inv_tail (a b x y : string) :
  String.length x = String.length y -> a ++ x = b ++ y -> x = y.
Proof.
  revert b; induction a as [|c a IH]; intros [|d b] Hlen E; cbn [append] in E.
  - exact E.
  - apply (f_equal String.length) in E. cbn [String.length] in E.
    rewrite append_length in E. lia.
  - apply (f_equal String.length) in E. cbn [String.length] in E.
    rewrite append_length in E. lia.
  - injection E as _ E. now apply (IH b).
Qed.

Lemma artifact_name_ext (stem caption : string) (n : nat) (ext : string) :
  artifact_name stem caption n ext = (stem ++ "_" ++ caption ++ "_p" ++ str n) ++ ext.
Proof. unfold artifact_name. now rewrite !append_assoc_str. Qed.

Lemma png_not_csv (stem c1 c2 : string) (n1 n2 : nat) :
  artifact_name stem c1 n1 ".png" <> artifact_name stem c2 n2 ".csv".
Proof.
  rewrite !artifact_name_ext. intros E.
  apply append_inv_tail in E; [discriminate E | reflexivity].
Qed.

Lemma png_not_txt (stem c1 : string) (n1 : nat) :
  artifact_name stem c1 n1 ".png" <> stem ++ ".txt".
Proof.
  rewrite artifact_name_ext. intros E.
  apply append_inv_tail in E; [discriminate E | reflexivity].
Qed.

Lemma filter_not_png (l : list (Path * Content)) :
  filter is_txt l = [] ->
  filter (fun f => negb (is_png f)) l = filter is_csv l.
Proof.
  induction l as [|[p c] l IH]; [reflexivity|].
  destruct c; cbn [filter is_txt is_csv is_png snd negb]; intros H.
  - discriminate H.
  - now rewrite (IH H).
  - exact (IH H).
Qed.

(** X10: in the files of one document, two writes can only go to the
    same path when both are images: the text file and the table files
    all have names of their own, and no image shares its name with one
    of them, whatever the captions are. *)
Theorem only_images_share_names
        (self : PDFToTextConverter) (stem output_dir : string) (pages : list Page) :
  let files := saved (extract_and_save_from_pdf self stem output_dir pages) in
  NoDup (map fst (filter (fun f => negb (is_png f)) files))
  /\ (forall a b, In a files -> In b files ->
                  is_png a = true -> is_png b = false -> fst a <> fst b).
Proof.
  cbn zeta.
  destruct (extract_files self stem output_dir pages) as (new & Hs & Hcsv & Hpng & Htxt).
  rewrite Hs.
  assert (Htables : forall f, In f (filter is_csv new) ->
            exists k n, name (fst f) = artifact_name stem ("table_" ++ str k) n ".csv").
  { rewrite Hcsv. unfold table_files. intros f Hf.
    destruct (convert_tables self); [|destruct Hf].
    apply in_map_iff in Hf as ([k [n t]] & <- & _). now exists k, n. }
  assert (Himages : forall f, In f new -> is_png f = true ->
            exists c n, name (fst f) = artifact_name stem c n ".png").
  { intros f Hf Hp.
    assert (Hin : In f (filter is_png new)) by (apply filter_In; now split).
    rewrite Hpng in Hin. unfold image_files in Hin.
    destruct (convert_images self); [|destruct Hin].
    apply in_map_iff in Hin as ([k [[[n page] img] region]] & <- & _).
    now eexists _, n. }
  split.
  - cbn [filter is_png snd negb map fst]. rewrite (filter_not_png new Htxt).
    constructor.
    + intros Hin. apply in_map_iff in Hin as (f & E & Hf).
      apply Htables in Hf as (k & n & Hname).
      apply (f_equal name) in E. cbn [name] in E. rewrite Hname in E.
      symmetry in E. exact (text_not_artifact _ _ _ _ E).
    + rewrite Hcsv. unfold table_files.
      destruct (convert_tables self); [|constructor].
      apply counter_files_NoDup.
      intros k [n t] k' [n' t'] _ _ E. apply (f_equal name) in E.
      exact (counter_name_inj _ _ _ _ _ _ _ E).
  - intros a b Ha Hb Hpa Hpb E. apply (f_equal name) in E.
    destruct Ha as [<-|Ha]; [discriminate Hpa|].
    destruct (Himages a Ha Hpa) as (c & n & Hname). rewrite Hname in E.
    destruct Hb as [<-|Hb].
    + cbn [fst name] in E. exact (png_not_txt _ _ _ E).
    + assert (Hcsvb : In b (filter is_csv new)).
      { rewrite <- (filter_not_png new Htxt). apply filter_In. split; [exact Hb|].
        now rewrite Hpb. }
      apply Htables in Hcsvb as (k & n' & Hnb). rewrite Hnb in E.
      exact (png_not_csv _ _ _ _ _ E).
Qed.

Lemma extract_inside (self : PDFToTextConverter) (stem output_dir : string)
      (pages : list Page) :
  Forall (fun f : Path * Content => parent (fst f) = output_dir)
         (saved (extract_and_save_from_pdf self stem output_dir pages)).
Proof.
  destruct (extract_files self stem output_dir pages) as (new & Hs & Hcsv & Hpng & Htxt).
  rewrite Hs. constructor; [reflexivity|].
  apply Forall_forall. intros [p c] Hf. destruct c.
  - assert (Hin : In (p, TextFile text) (filter is_txt new))
      by (apply filter_In; now split).
    rewrite Htxt in Hin. destruct Hin.
  - assert (Hin : In (p, CsvFile rows) (filter is_csv new))
      by (apply filter_In; now split).
    rewrite Hcsv in Hin. unfold table_files in Hin.
    destruct (convert_tables self); [|destruct Hin].
    apply in_map_iff in Hin as ([k [n t]] & E & _).
    cbn [table_file] in E. now injection E as <- _.
  - assert (Hin : In (p, PngFile image) (filter is_png new))
      by (apply filter_In; now split).
    rewrite Hpng in Hin. unfold image_files in Hin.
    destruct (convert_images self); [|destruct Hin].
    apply in_map_iff in Hin as ([k [[[n page] img] region]] & E & _).
    cbn [image_file] in E. now injection E as <- _.
Qed.

(** ** [convert] *)

Section ConvertFacts.
Variable self : PDFToTextConverter.
Variable output_folder : string.
Variable joinpath : string -> string -> string.

Lemma extract_calls_raised (output_dir : string) (pdfs : list PdfPath) (run : Run) :
  raised run = true ->
  fold_left (extract_call self output_dir) pdfs run = run.
Proof.
  intros Hr. induction pdfs as [|pdf pdfs IH]; [reflexivity|].
  cbn [fold_left]. unfold extract_call at 2. now rewrite Hr.
Qed.

Lemma extract_calls_open (output_dir : string) (pdfs : list PdfPath) (run : Run) :
  raised run = false ->
  forallb opens pdfs = true ->
  fold_left (extract_call self output_dir) pdfs run
  = {| written := written run ++ documents_files self output_dir pdfs;
       console := console run ++ documents_console self output_dir pdfs;
       raised := false |}.
Proof.
  revert run; induction pdfs as [|pdf pdfs IH]; intros run Hr Hall.
  - cbn. rewrite !app_nil_r. destruct run; cbn in Hr |- *. now rewrite Hr.
  - cbn [forallb] in Hall. apply andb_prop in Hall as [Hpdf Hall].
    cbn [fold_left]. unfold opens in Hpdf.
    unfold documents_files, documents_console. cbn [flat_map].
    fold (documents_files self output_dir pdfs).
    fold (documents_console self output_dir pdfs).
    unfold extract_call at 2. rewrite Hr.
    destruct (pdf_open pdf) as [pages|]; [|discriminate].
    rewrite IH; [|reflexivity|exact Hall].
    cbn [written console]. now rewrite <- !app_assoc.
Qed.

Lemma documents_console_valid (output_dir : string) (pdfs : list PdfPath) :
  ~ In InvalidInput (documents_console self output_dir pdfs).
Proof.
  unfold documents_console. intros Hin. apply in_flat_map in Hin as (pdf & _ & Hin).
  destruct (pdf_open pdf) as [pages|]; [|destruct Hin].
  apply in_map_iff in Hin as (line & E & _). discriminate E.
Qed.

Lemma extract_calls_console (output_dir : string) (pdfs : list PdfPath) (run : Run) :
  ~ In InvalidInput (console run) ->
  ~ In InvalidInput (console (fold_left (extract_call self output_dir) pdfs run)).
Proof.
  revert run; induction pdfs as [|pdf pdfs IH]; intros run Hrun; [exact Hrun|].
  cbn [fold_left]. apply IH. unfold extract_call.
  destruct (raised run); [exact Hrun|].
  destruct (pdf_open pdf) as [pages|]; [|exact Hrun].
  cbn [console]. intros Hin. apply in_app_or in Hin as [Hin|Hin]; [now apply Hrun|].
  apply in_map_iff in Hin as (line & E & _). discriminate E.
Qed.

Lemma extract_calls_inside (output_dir : string) (pdfs : list PdfPath) (run : Run) :
  Forall (fun f : Path * Content => parent (fst f) = output_dir) (written run) ->
  Forall (fun f : Path * Content => parent (fst f) = output_dir)
         (written (fold_left (extract_call self output_dir) pdfs run)).
Proof.
  revert run; induction pdfs as [|pdf pdfs IH]; intros run Hrun; [exact Hrun|].
  cbn [fold_left]. apply IH. unfold extract_call.
  destruct (raised run); [exact Hrun|].
  destruct (pdf_open pdf); [|exact Hrun].
  cbn [written]. apply Forall_app. split; [exact Hrun | apply extract_inside].
Qed.

(** X11: on a directory whose PDFs all open, [convert] writes, for each
    path the glob yields and in that order, exactly the files of that
    document extracted on its own into the subfolder named after the
    directory, and prints its lines; the counters start again at 1 for
    each document; with no PDF in the directory nothing is written and
    nothing is printed. *)
Theorem convert_directory (input_path : InputPath) :
  is_pdf_file input_path = false ->
  is_dir input_path = true ->
  forallb opens (glob_pdf input_path) = true ->
  convert self output_folder joinpath input_path
  = {| written := documents_files self (joinpath output_folder (path_name input_path))
                                  (glob_pdf input_path);
       console := documents_console self (joinpath output_folder (path_name input_path))
                                    (glob_pdf input_path);
       raised := false |}.
Proof.
  intros Hfile Hdir Hall. unfold convert. unfold is_pdf_file in Hfile.
  rewrite Hfile, Hdir. cbn zeta.
  now rewrite extract_calls_open by (reflexivity || exact Hall).
Qed.

(** X12: on a directory, a PDF that does not open ends the run there:
    the files of the documents before it stay written, nothing is
    written or printed for it nor for the documents after it, and the
    call ends by the exception. *)
Theorem convert_directory_aborts
        (input_path : InputPath) (before after : list PdfPath) (bad : PdfPath) :
  is_pdf_file input_path = false ->
  is_dir input_path = true ->
  glob_pdf input_path = (before ++ bad :: after)%list ->
  forallb opens before = true ->
  pdf_open bad = None ->
  convert self output_folder joinpath input_path
  = {| written := documents_files self (joinpath output_folder (path_name input_path))
                                  before;
       console := documents_console self (joinpath output_folder (path_name input_path))
                                    before;
       raised := true |}.
Proof.
  intros Hfile Hdir Hglob Hall Hbad. unfold convert. unfold is_pdf_file in Hfile.
  rewrite Hfile, Hdir, Hglob. cbn zeta. rewrite fold_left_app.
  rewrite (extract_calls_open _ before nothing eq_refl Hall).
  cbn [fold_left]. rewrite extract_calls_raised.
  - unfold extract_call. cbn [raised written console nothing app]. now rewrite Hbad.
  - unfold extract_call. cbn [raised]. now rewrite Hbad.
Qed.

(** X13: [convert] prints the invalid-input line exactly when the input
    is neither a file with the suffix [.pdf] in any case nor a
    directory; it then writes nothing, prints nothing else and ends
    normally. *)
Theorem convert_invalid_input (input_path : InputPath) :
  (In InvalidInput (console (convert self output_folder joinpath input_path))
   <-> is_pdf_file input_path = false /\ is_dir input_path = false)
  /\ (is_pdf_file input_path = false -> is_dir input_path = false ->
      convert self output_folder joinpath input_path
      = {| written := []; console := [InvalidInput]; raised := false |}).
Proof.
  unfold convert, is_pdf_file.
  destruct (is_file input_path && String.eqb (str_lower (path_suffix input_path)) ".pdf").
  - split; [|discriminate]. split; [|now intros [? _]].
    cbn zeta. intros Hin. exfalso.
    apply (extract_calls_console output_folder [as_pdf input_path] nothing);
      [intros [] | exact Hin].
  - destruct (is_dir input_path).
    + split; [|discriminate]. split; [|now intros [_ ?]].
      cbn zeta. intros Hin. exfalso.
      apply (extract_calls_console (joinpath output_folder (path_name input_path))
               (glob_pdf input_path) nothing); [intros [] | exact Hin].
    + split; [|reflexivity]. split; [now split | intros _; now left].
Qed.

(** X14: every file [convert] writes lies in the output folder when the
    input is a PDF file, and in the subfolder of the output folder named
    after the input directory otherwise. *)
Theorem convert_writes_inside (input_path : InputPath) :
  Forall (fun f : Path * Content =>
            parent (fst f)
            = if is_pdf_file input_path then output_folder
              else joinpath output_folder (path_name input_path))
         (written (convert self output_folder joinpath input_path)).
Proof.
  unfold convert, is_pdf_file.
  destruct (is_file input_path && String.eqb (str_lower (path_suffix input_path)) ".pdf").
  - cbn zeta. apply (extract_calls_inside output_folder [as_pdf input_path] nothing).
    constructor.
  - destruct (is_dir input_path); [|constructor].
    cbn zeta. apply extract_calls_inside. constructor.
Qed.
End ConvertFacts.

Lemma convert_directory_witness :
  is_pdf_file (Inputs.docs_with [Inputs.first_pdf; Inputs.last_pdf]) = false
  /\ is_dir (Inputs.docs_with [Inputs.first_pdf; Inputs.last_pdf]) = true
  /\ forallb opens [Inputs.first_pdf; Inputs.last_pdf] = true
  /\ map (fun f => name (fst f))
         (written (convert Examples.tables_only "out" Inputs.slash
                           (Inputs.docs_with [Inputs.first_pdf; Inputs.last_pdf])))
     = [ "a.txt"; "a_table_1_p1.csv"; "a_table_2_p1.csv"; "c.txt"; "c_table_1_p1.csv" ].
Proof.
  assert (H1 : is_pdf_file (Inputs.docs_with [Inputs.first_pdf; Inputs.last_pdf])
               = false) by reflexivity.
  assert (H2 : is_dir (Inputs.docs_with [Inputs.first_pdf; Inputs.last_pdf]) = true)
    by reflexivity.
  assert (H3 : forallb opens [Inputs.first_pdf; Inputs.last_pdf] = true)
    by reflexivity.
  split; [exact H1|]. split; [exact H2|]. split; [exact H3|].
  rewrite (convert_directory Examples.tables_only "out" Inputs.slash _ H1 H2 H3).
  vm_compute. reflexivity.
Defined.

Lemma convert_directory_aborts_witness :
  map (fun f => name (fst f))
      (written (convert Examples.tables_only "out" Inputs.slash
                        (Inputs.docs_with
                           [Inputs.first_pdf; Inputs.broken_pdf; Inputs.last_pdf])))
  = [ "a.txt"; "a_table_1_p1.csv"; "a_table_2_p1.csv" ]
  /\ raised (convert Examples.tables_only "out" Inputs.slash
                     (Inputs.docs_with
                        [Inputs.first_pdf; Inputs.broken_pdf; Inputs.last_pdf]))
     = true.
Proof.
  rewrite (convert_directory_aborts Examples.tables_only "out" Inputs.slash
             (Inputs.docs_with
                [Inputs.first_pdf; Inputs.broken_pdf; Inputs.last_pdf])
             [Inputs.first_pdf] [Inputs.last_pdf] Inputs.broken_pdf
             eq_refl eq_refl eq_refl eq_refl eq_refl).
  split; vm_compute; reflexivity.
Defined.

(** ** When the file names of a document are all different *)

Lemma all_digits_app (a b : string) :
  all_digits (a ++ b) = all_digits a && all_digits b.
Proof.
  induction a as [|x a IH]; simpl; [reflexivity|].
  now rewrite IH, andb_assoc.
Qed.

Lemma append_inv_heads (a b x y : string) :
  String.length a = String.length b -> a ++ x = b ++ y -> a = b.
Proof.
  revert b; induction a as [|c a IH]; intros [|d b] Hlen E;
    cbn [String.length] in Hlen; try discriminate Hlen; [reflexivity|].
  cbn [append] in E. injection E as -> E. f_equal. apply (IH b); [lia | exact E].
Qed.

Lemma append_inv_same_tail (a b x : string) : a ++ x = b ++ x -> a = b.
Proof.
  intros E. apply (append_inv_heads a b x x); [|exact E].
  apply (f_equal String.length) in E. rewrite !append_length in E. lia.
Qed.

(** A caption followed by [_p] and a page number is read in one way. *)
Lemma caption_page_inj (c c' d d' : string) :
  all_digits d = true -> all_digits d' = true ->
  c ++ "_p" ++ d = c' ++ "_p" ++ d' -> c = c' /\ d = d'.
Proof.
  intros Hd Hd'. revert c'; induction c as [|x c IH]; intros [|x' c'] E;
    cbn [append] in E.
  - injection E as E. now split.
  - injection E as <- E. destruct c' as [|y c']; cbn [append] in E.
    + discriminate E.
    + injection E as _ E. rewrite E, all_digits_app in Hd.
      apply andb_prop in Hd as [_ Hd]. discriminate Hd.
  - injection E as -> E. destruct c as [|y c]; cbn [append] in E.
    + discriminate E.
    + injection E as _ E. rewrite <- E, all_digits_app in Hd'.
      apply andb_prop in Hd' as [_ Hd']. discriminate Hd'.
  - injection E as -> E. destruct (IH c' E) as [-> ->]. now split.
Qed.

Lemma artifact_name_inj (stem c c' : string) (n n' : nat) (ext : string) :
  artifact_name stem c n ext = artifact_name stem c' n' ext -> c = c' /\ n = n'.
Proof.
  rewrite !artifact_name_ext. intros E. apply append_inv_same_tail in E.
  apply append_inv_head in E. cbn [append] in E. injection E as E.
  apply caption_page_inj in E as [-> E]; [|apply str_digits..].
  split; [reflexivity | now apply str_inj].
Qed.

Lemma label_path_inj (stem output_dir : string) (l l' : string * nat) :
  label_path stem output_dir l = label_path stem output_dir l' -> l = l'.
Proof.
  destruct l as [c n], l' as [c' n']. unfold label_path. cbn [fst snd].
  intros E. apply (f_equal name) in E. cbn [name] in E.
  now apply artifact_name_inj in E as [-> ->].
Qed.

Lemma image_file_label (stem output_dir : string)
      (entry : nat * (nat * Page * Image * Region)) :
  fst (image_file stem output_dir entry) = label_path stem output_dir (image_label entry).
Proof. destruct entry as [k [[[n page] img] region]]. reflexivity. Qed.

(** The paths of the files of one kind are among the paths of all. *)
Lemma paths_of_kind_NoDup (kind : Path * Content -> bool) (files : list (Path * Content)) :
  NoDup (map fst files) -> NoDup (map fst (filter kind files)).
Proof.
  intros H. induction files as [|file files IH]; cbn [map filter]; [constructor|].
  cbn [map] in H. apply NoDup_cons_iff in H as [Hfile H].
  destruct (kind file); [|now apply IH].
  cbn [map]. constructor; [|now apply IH].
  intros Hin. apply Hfile. apply in_map_iff in Hin as (other & E & Hother).
  apply filter_In in Hother as [Hother _]. rewrite <- E. now apply in_map.
Qed.

Lemma NoDup_map_injective {A B : Type} (f : A -> B) (l : list A) :
  (forall x y, f x = f y -> x = y) -> NoDup l -> NoDup (map f l).
Proof.
  intros Hinj H. induction H as [|x l Hx _ IH]; cbn [map]; constructor; [|exact IH].
  intros Hin. apply in_map_iff in Hin as (y & E & Hy). apply Hinj in E. now subst y.
Qed.

Lemma image_paths_labels (self : PDFToTextConverter) (stem output_dir : string)
      (pages : list Page) :
  map fst (image_files self stem output_dir 1 1 pages)
  = map (label_path stem output_dir) (image_labels self pages).
Proof.
  unfold image_files, image_labels. destruct (convert_images self); [|reflexivity].
  rewrite !map_map. apply map_ext. intros entry. apply image_file_label.
Qed.

Lemma duplicate_not_NoDup {A : Type} (before mid after : list A) (x : A) :
  ~ NoDup (before ++ x :: mid ++ x :: after).
Proof.
  intros H. apply NoDup_remove_2 in H. apply H.
  apply in_or_app. right. apply in_or_app. right. now left.
Qed.

(** C1, as the code has it: the name of an image holds its caption when
    one is found and the counter otherwise, never both.  The file names
    of a document are all different exactly when no two images that crop
    have the same label, the caption or else [figure_<N>], with the same
    page number; they are all different when no image has a caption; and
    two images that crop on one page with the same caption are written
    under the same name. *)
Theorem filenames_unique_iff_labels_distinct
        (self : PDFToTextConverter) (stem output_dir : string) (pages : list Page) :
  (NoDup (filenames (extract_and_save_from_pdf self stem output_dir pages))
   <-> NoDup (image_labels self pages))
  /\ ((forall page img,
          In page pages -> In img (images page) ->
          find_caption page (image_bbox img) = None) ->
      NoDup (filenames (extract_and_save_from_pdf self stem output_dir pages)))
  /\ (forall before mid after entry1 entry2 c,
        convert_images self = true ->
        enumerate 1 (cropped_from 1 pages)
        = (before ++ entry1 :: mid ++ entry2 :: after)%list ->
        entry_page entry1 = entry_page entry2 ->
        entry_caption entry1 = Some c ->
        entry_caption entry2 = Some c ->
        fst (image_file stem output_dir entry1) = fst (image_file stem output_dir entry2)
        /\ ~ NoDup (filenames (extract_and_save_from_pdf self stem output_dir pages))).
Proof.
  assert (Hiff : NoDup (filenames (extract_and_save_from_pdf self stem output_dir pages))
                 <-> NoDup (image_labels self pages)).
  { unfold filenames.
    destruct (extract_files self stem output_dir pages)
      as (new & Hs & Hcsv & Hpng & Htxt).
    rewrite Hs. cbn [map fst].
    pose proof (image_paths_labels self stem output_dir pages) as Hpaths.
    rewrite <- Hpng in Hpaths.
    assert (Htables : forall f, In f (filter is_csv new) ->
              exists k n, name (fst f) = artifact_name stem ("table_" ++ str k) n ".csv").
    { rewrite Hcsv. unfold table_files. intros f Hf.
      destruct (convert_tables self); [|destruct Hf].
      apply in_map_iff in Hf as ([k [n t]] & <- & _). now exists k, n. }
    assert (Himages : forall f, In f (filter is_png new) ->
              exists c n, name (fst f) = artifact_name stem c n ".png").
    { intros f Hf. rewrite Hpng in Hf. unfold image_files in Hf.
      destruct (convert_images self); [|destruct Hf].
      apply in_map_iff in Hf as ([k [[[n page] img] region]] & <- & _).
      now eexists _, n. }
    split.
    - intros H. apply NoDup_cons_iff in H as [_ H].
      apply (paths_of_kind_NoDup is_png) in H. rewrite Hpaths in H.
      now apply NoDup_map_inv in H.
    - intros H. constructor.
      + intros Hin. apply in_map_iff in Hin as ([q d] & E & Hf).
        apply (f_equal name) in E. cbn [fst name] in E. destruct d.
        * assert (Hin : In (q, TextFile text) (filter is_txt new))
            by (apply filter_In; now split).
          rewrite Htxt in Hin. destruct Hin.
        * assert (Hin : In (q, CsvFile rows) (filter is_csv new))
            by (apply filter_In; now split).
          apply Htables in Hin as (k & n & Hname). cbn [fst] in Hname.
          rewrite Hname in E. symmetry in E. exact (text_not_artifact _ _ _ _ E).
        * assert (Hin : In (q, PngFile image) (filter is_png new))
            by (apply filter_In; now split).
          apply Himages in Hin as (c & n & Hname). cbn [fst] in Hname.
          rewrite Hname in E. exact (png_not_txt _ _ _ E).
      + apply kinds_NoDup; [exact Htxt | | |].
        * rewrite Hcsv. unfold table_files.
          destruct (convert_tables self); [|constructor].
          apply counter_files_NoDup.
          intros k [n t] k' [n' t'] _ _ E. apply (f_equal name) in E.
          exact (counter_name_inj _ _ _ _ _ _ _ E).
        * rewrite Hpaths. apply NoDup_map_injective; [|exact H].
          intros l l'. apply label_path_inj.
        * intros a b Ha Hb E. apply Htables in Ha as (k & n & Ha).
          apply Himages in Hb as (c & n' & Hb).
          apply (f_equal name) in E. rewrite Ha, Hb in E.
          symmetry in E. exact (png_not_csv _ _ _ _ _ E). }
  split; [exact Hiff|]. split.
  - apply filenames_unique_without_captions.
  - intros before mid after entry1 entry2 c Hci Hlist Hpage Hc1 Hc2.
    assert (Hc : c <> EmptyString).
    { destruct entry1 as [k [[[n page] img] region]]. cbn [entry_caption] in Hc1.
      intros ->. exact (find_caption_nonempty page (image_bbox img) Hc1). }
    assert (Hlabel : image_label entry1 = image_label entry2).
    { unfold image_label. rewrite Hc1, Hc2, Hpage.
      destruct c; [contradiction | reflexivity]. }
    split.
    + now rewrite !image_file_label, Hlabel.
    + intros H. apply Hiff in H. unfold image_labels in H.
      rewrite Hci, Hlist, map_app in H. cbn [map] in H. rewrite map_app in H.
      cbn [map] in H. rewrite Hlabel in H.
      exact (duplicate_not_NoDup _ _ _ _ H).
Qed.

Lemma filenames_unique_iff_labels_distinct_witness :
  image_labels Examples.images_only [Captions.distinct_captions_page]
  = [("Sales", 1); ("Costs", 1)]
  /\ (exists img,
         In img (images Captions.distinct_captions_page)
         /\ find_caption Captions.distinct_captions_page (image_bbox img) <> None)
  /\ filenames (extract_and_save_from_pdf Examples.images_only "report" "out"
                  [Captions.distinct_captions_page])
     = [ {| parent := "out"; name := "report.txt" |};
         {| parent := "out"; name := "report_Sales_p1.png" |};
         {| parent := "out"; name := "report_Costs_p1.png" |} ]
  /\ NoDup (filenames (extract_and_save_from_pdf Examples.images_only "report" "out"
                         [Captions.distinct_captions_page])).
Proof.
  assert (Hlabels : image_labels Examples.images_only [Captions.distinct_captions_page]
                    = [("Sales", 1); ("Costs", 1)]) by (vm_compute; reflexivity).
  split; [exact Hlabels|]. split.
  { exists Examples.left_figure. split; [now left|]. vm_compute. discriminate. }
  split; [vm_compute; reflexivity|].
  apply (proj1 (filenames_unique_iff_labels_distinct
                  Examples.images_only "report" "out" [Captions.distinct_captions_page])).
  rewrite Hlabels. constructor.
  - intros [E|[]]. discriminate E.
  - constructor; [intros [] | constructor].
Defined.
